(** * Ephemeral chat backend: message lifecycle and broadcast engine

    A shallow embedding of [backend/server.py]: the attachment deny-list
    ([is_file_allowed]), the connection registry ([ConnectionManager]),
    message ingestion ([create_message]), retrieval ([get_messages]) and the
    two periodic sweeps ([cleanup_expired_messages],
    [auto_clear_all_messages]).

    Conventions of the embedding:
    - a [str] is a [string] of 8-bit characters; [str.lower] acts on the
      ASCII letters;
    - a [datetime] is the number of microseconds since 0001-01-01T00:00:00Z,
      with Python's range check on [datetime + timedelta];
    - the MongoDB collection [db.messages] is the list of its documents in
      insertion order; a document keeps its datetimes the way BSON does, in
      whole milliseconds, and a query sees its datetime operand the same
      way; the collection itself is taken to answer every call;
    - the upload directory is a finite map from path to file contents, and
      opening a file fails when a component of its path is longer than the
      file system allows; the registry is the Python list it is in the
      source;
    - what the process reads from its environment (the clock, [uuid4], the
      outcome of a socket send or of the webhook call) is an explicit
      argument;
    - every handler is run to completion: interleavings at [await] points
      are not modelled. *)

From Stdlib Require Import ZArith Bool Ascii String DecimalString List Lia.
From Stdlib Require Import Permutation Sorted.
From stdpp Require Import gmap strings list fin_maps sorting.
Import ListNotations.

Local Open Scope string_scope.
Local Open Scope Z_scope.

(** ** Python strings *)

Module PyStr.

Definition is_upper (c : ascii) : bool :=
  let n := nat_of_ascii c in (Nat.leb 65 n) && (Nat.leb n 90).

(** [str.lower] on one character. *)
Definition lower_char (c : ascii) : ascii :=
  if is_upper c then ascii_of_nat (nat_of_ascii c + 32) else c.

(** [s.lower()] *)
Fixpoint lower (s : string) : string :=
  match s with
  | EmptyString => EmptyString
  | String c r => String (lower_char c) (lower r)
  end.

(** [len(s)] *)
Definition len (s : string) : Z := Z.of_nat (String.length s).

(** [s.split(sep)] for a one-character separator: never empty. *)
Fixpoint split (sep : ascii) (s : string) : list string :=
  match s with
  | EmptyString => [EmptyString]
  | String c r =>
      if Ascii.eqb c sep then EmptyString :: split sep r
      else match split sep r with
           | h :: t => String c h :: t
           | [] => [String c EmptyString]
           end
  end.

(** [s.rfind(c)]: index of the last occurrence of [c], or [-1]. *)
Fixpoint rfind (c : ascii) (s : string) : Z :=
  match s with
  | EmptyString => -1
  | String a r =>
      let k := rfind c r in
      if 0 <=? k then k + 1
      else if Ascii.eqb a c then 0 else -1
  end.

(** [s[i:]] for [0 <= i]. *)
Fixpoint drop (n : nat) (s : string) : string :=
  match n, s with
  | O, _ => s
  | S n', String _ r => drop n' r
  | S _, EmptyString => EmptyString
  end.

Definition slice_from (i : Z) (s : string) : string := drop (Z.to_nat i) s.

(** [c in s] *)
Fixpoint contains (c : ascii) (s : string) : bool :=
  match s with
  | EmptyString => false
  | String a r => Ascii.eqb a c || contains c r
  end.

(** Truthiness of an optional string: [None] and [''] are falsy. *)
Definition truthy (o : option string) : bool :=
  match o with
  | Some s => negb (String.eqb s "")
  | None => false
  end.

End PyStr.

(** ** pathlib: the final component of a path and its suffix *)

Module PyPath.

(** The components [pathlib] keeps when it parses a POSIX path: empty
    components and ["."] are dropped. *)
Definition keep_part (x : string) : bool :=
  negb (String.eqb x "") && negb (String.eqb x ".").

Definition parts (p : string) : list string :=
  List.filter keep_part (PyStr.split "/" p).

(** [Path(p).name]: the last component, [''] when there is none. *)
Definition name (p : string) : string := List.last (parts p) "".

(** [Path(p).suffix]:
    [i = name.rfind('.'); name[i:] if 0 < i < len(name) - 1 else '']. *)
Definition suffix (p : string) : string :=
  let nm := name p in
  let i := PyStr.rfind "." nm in
  if (0 <? i) && (i <? PyStr.len nm - 1) then PyStr.slice_from i nm else "".

End PyPath.

(** ** The deny-list *)

(** [BLOCKED_EXTENSIONS = {'.php', '.phtml', '.sh'}] *)
Definition BLOCKED_EXTENSIONS : gset string := {[ ".php"; ".phtml"; ".sh" ]}.

(** [is_file_allowed(filename)] *)
Definition is_file_allowed (filename : string) : bool :=
  let file_ext := PyStr.lower (PyPath.suffix filename) in
  bool_decide (file_ext ∉ BLOCKED_EXTENSIONS).

(** ** Data model *)

(** Microseconds since 0001-01-01T00:00:00Z. *)
Definition datetime := Z.

Module PyTime.

Definition US_PER_SECOND : Z := 1000000.
Definition SECONDS_PER_DAY : Z := 86400.

(** [timedelta.max.days] *)
Definition MAX_DELTA_DAYS : Z := 999999999.

(** [datetime.max.toordinal()]: the days of the years 1 to 9999. *)
Definition MAX_ORDINAL : Z := 3652059.

Definition in_range (d : Z) : bool :=
  (0 <=? d) && (d <? MAX_ORDINAL * SECONDS_PER_DAY * US_PER_SECOND).

(** [timedelta(seconds=s)] in microseconds; [None] is [OverflowError]. *)
Definition timedelta_seconds (s : Z) : option Z :=
  let days := s / SECONDS_PER_DAY in
  if (- MAX_DELTA_DAYS <=? days) && (days <=? MAX_DELTA_DAYS)
  then Some (s * US_PER_SECOND) else None.

(** [d + delta]; [None] is [OverflowError] (year out of 1..9999). *)
Definition add (d : datetime) (delta : Z) : option datetime :=
  if in_range (d + delta) then Some (d + delta) else None.

(** [d + timedelta(seconds=s)] *)
Definition after_seconds (d : datetime) (s : Z) : option datetime :=
  match timedelta_seconds s with
  | Some delta => add d delta
  | None => None
  end.

End PyTime.

(** [class Message(BaseModel)] *)
Record Message := mkMessage {
  id : string;
  content : string;
  username : string;
  timestamp : datetime;
  ttl_seconds : option Z;
  expires_at : option datetime;
  file_path : option string;
  file_name : option string;
  file_size : option Z
}.

(** ** BSON: what a message is inside the collection *)

Module Bson.

(** BSON keeps a UTC datetime as a count of whole milliseconds: the driver
    drops the microseconds below the millisecond. *)
Definition millis (d : datetime) : Z := d / 1000.

(** The [datetime] the driver builds from a BSON date. *)
Definition of_millis (ms : Z) : datetime := ms * 1000.

(** A [datetime] after a trip through BSON; the datetime operand of a query
    makes the same trip. *)
Definition date (d : datetime) : datetime := of_millis (millis d).

(** A document of [db.messages]: [message.dict()] as BSON. *)
Record Document := mkDocument {
  doc_id : string;
  doc_content : string;
  doc_username : string;
  doc_timestamp : Z;
  doc_ttl_seconds : option Z;
  doc_expires_at : option Z;
  doc_file_path : option string;
  doc_file_name : option string;
  doc_file_size : option Z
}.

(** [insert_one(message.dict())]: the dictionary as the driver encodes it. *)
Definition encode (m : Message) : Document :=
  mkDocument (id m) (content m) (username m) (millis (timestamp m))
             (ttl_seconds m) (option_map millis (expires_at m))
             (file_path m) (file_name m) (file_size m).

(** A document read back into a [Message]. *)
Definition decode (d : Document) : Message :=
  mkMessage (doc_id d) (doc_content d) (doc_username d)
            (of_millis (doc_timestamp d)) (doc_ttl_seconds d)
            (option_map of_millis (doc_expires_at d))
            (doc_file_path d) (doc_file_name d) (doc_file_size d).

(** A message as it is read back after it was inserted: its [timestamp]
    and [expires_at] cut to the millisecond. *)
Definition through (m : Message) : Message := decode (encode m).

End Bson.

(** An [UploadFile]: the client's file name and the bytes it sent. *)
Record UploadFile := mkUpload {
  filename : option string;
  payload : list Byte.byte
}.

(** A [WebSocket] object, by identity. *)
Definition WebSocket := nat.

(** The dictionaries handed to [json.dumps] before a broadcast. *)
Inductive WireEvent :=
| NewMessage (message : Message)
| Cleanup (deleted_count : nat)
| AutoClear (message : string).

(** What the handlers do to the outside, in the order they do it. *)
Inductive Event :=
| EvFileWrite (path : string) (size : Z)
| EvFileUnlink (path : string)
| EvInsert (m : Message)
| EvDeleteMany (deleted_count : nat)
| EvBroadcast (e : WireEvent)
| EvSent (ws : WebSocket) (e : WireEvent)
| EvSendFailed (ws : WebSocket) (e : WireEvent)
| EvRelay (text : string) (with_file : bool) (delivered : bool).

Inductive Exn :=
| HTTPException (status_code : Z) (detail : string)
| RequestValidationError (missing : list string)
| OverflowError
| ValueError
| OSError (errno : Z).

Record World := Build_World {
  db_docs : list Bson.Document;
  uploads : gmap string (list Byte.byte);
  active_connections : list WebSocket;
  trace : list Event
}.

(** The collection as the handlers read it: every document decoded. *)
Definition db_messages (w : World) : list Message :=
  List.map Bson.decode (db_docs w).

(** The world whose collection holds these messages, inserted in order. *)
Definition mkWorld (ms : list Message) (fs : gmap string (list Byte.byte))
    (cs : list WebSocket) (tr : list Event) : World :=
  Build_World (List.map Bson.encode ms) fs cs tr.

(** What [requests.post] does to the webhook call. *)
Inductive RelayOutcome :=
| RelayStatus (status_code : Z)
| RelayRaises.

(** The readings a handler takes from its environment. *)
Record Env := mkEnv {
  now : datetime;             (* [datetime.now(timezone.utc)] in the handler *)
  now_created : datetime;     (* the clock read by [Message.timestamp]'s factory *)
  uuid_file : string;         (* [uuid4()] for the stored file *)
  uuid_msg : string;          (* [uuid4()] for [Message.id] *)
  send_fails : WebSocket -> bool;  (* [send_text] raises on this socket *)
  relay : RelayOutcome
}.

(** ** A state and exception monad for the handlers *)

Inductive Outcome (A : Type) :=
| Ret (a : A)
| Raise (e : Exn).
Arguments Ret {A} a.
Arguments Raise {A} e.

Definition M (A : Type) : Type := World -> Outcome A * World.

Definition ret {A} (a : A) : M A := fun w => (Ret a, w).

Definition bind {A B} (c : M A) (k : A -> M B) : M B :=
  fun w => match c w with
           | (Ret a, w') => k a w'
           | (Raise e, w') => (Raise e, w')
           end.

Definition raise {A} (e : Exn) : M A := fun w => (Raise e, w).

Definition get : M World := fun w => (Ret w, w).

Definition emit (ev : Event) : M unit :=
  fun w => (Ret tt, Build_World (db_docs w) (uploads w) (active_connections w)
                                (trace w ++ [ev])).

(** The collection after a bulk delete: the messages that are left. *)
Definition set_messages (ms : list Message) : M unit :=
  fun w => (Ret tt, mkWorld ms (uploads w) (active_connections w) (trace w)).

(** [db.messages.insert_one(message.dict())] *)
Definition insert_one (m : Message) : M unit :=
  fun w => (Ret tt, Build_World (db_docs w ++ [Bson.encode m]) (uploads w)
                                (active_connections w) (trace w)).

Definition set_uploads (fs : gmap string (list Byte.byte)) : M unit :=
  fun w => (Ret tt, Build_World (db_docs w) fs (active_connections w) (trace w)).

Definition set_connections (cs : list WebSocket) : M unit :=
  fun w => (Ret tt, Build_World (db_docs w) (uploads w) cs (trace w)).

(** [try: c except Exception: pass] *)
Definition try_pass (c : M unit) : M unit :=
  fun w => match c w with
           | (Ret _, w') => (Ret tt, w')
           | (Raise _, w') => (Ret tt, w')
           end.

Declare Scope py_scope.
Delimit Scope py_scope with py.
Notation "x <- c ;; k" := (bind c (fun x => k))
  (at level 100, c at next level, right associativity) : py_scope.
Notation "c ;;; k" := (bind c (fun _ => k))
  (at level 100, right associativity) : py_scope.
Local Open Scope py_scope.

(** [for x in xs: body(x)] over a list that the body does not change. *)
Fixpoint for_each {A} (xs : list A) (body : A -> M unit) : M unit :=
  match xs with
  | [] => ret tt
  | x :: rest => body x ;;; for_each rest body
  end.

(** ** The connection registry *)

Module ConnectionManager.

(** [list.remove(x)]: drops the first element equal to [x]; [None] is the
    [ValueError] Python raises when there is none. *)
Fixpoint list_remove (x : WebSocket) (l : list WebSocket)
  : option (list WebSocket) :=
  match l with
  | [] => None
  | y :: t =>
      if Nat.eqb x y then Some t
      else match list_remove x t with
           | Some t' => Some (y :: t')
           | None => None
           end
  end.

(** [self.active_connections.remove(websocket)] *)
Definition remove (websocket : WebSocket) : M unit :=
  w <- get ;;
  match list_remove websocket (active_connections w) with
  | Some cs => set_connections cs
  | None => raise ValueError
  end.

(** [connect]: [accept], then [append]. *)
Definition connect (websocket : WebSocket) : M unit :=
  w <- get ;;
  set_connections (active_connections w ++ [websocket]).

(** [disconnect] *)
Definition disconnect (websocket : WebSocket) : M unit :=
  remove websocket.

(** The [for connection in self.active_connections] loop. Python's list
    iterator keeps an index into the live list: each round reads the
    element at index [i] of the list as it is then, and stops when [i]
    is past its end. *)
Fixpoint broadcast_loop (fails : WebSocket -> bool) (message : WireEvent)
    (fuel i : nat) : M unit :=
  match fuel with
  | O => ret tt
  | S fuel' =>
      w <- get ;;
      match nth_error (active_connections w) i with
      | None => ret tt
      | Some connection =>
          (if fails connection
           then emit (EvSendFailed connection message) ;;;
                remove connection
           else emit (EvSent connection message)) ;;;
          broadcast_loop fails message fuel' (S i)
      end
  end.

(** [broadcast]: the list never grows during the loop, so its length at
    entry bounds the number of rounds. *)
Definition broadcast (fails : WebSocket -> bool) (message : WireEvent)
  : M unit :=
  emit (EvBroadcast message) ;;;
  w <- get ;;
  broadcast_loop fails message (List.length (active_connections w)) 0.

End ConnectionManager.

(** ** The MongoDB collection *)

Module Mongo.

(** [{"expires_at": {"$lt": t}}] on a document as it is read back. The
    comparison is between BSON dates: the stored [expires_at] is in whole
    milliseconds already, the operand [t] is cut to the millisecond when the
    query is encoded. Comparison operators only match values of the
    operand's type, so a null [expires_at] does not match. *)
Definition expires_lt (t : datetime) (m : Message) : bool :=
  match expires_at m with
  | Some e => e <? Bson.date t
  | None => false
  end.

(** [{"expires_at": {"$gt": t}}] *)
Definition expires_gt (t : datetime) (m : Message) : bool :=
  match expires_at m with
  | Some e => Bson.date t <? e
  | None => false
  end.

(** [{"expires_at": None}] *)
Definition expires_null (m : Message) : bool :=
  match expires_at m with
  | Some _ => false
  | None => true
  end.

(** [{"$or": [{"expires_at": {"$gt": t}}, {"expires_at": None}]}] *)
Definition live_query (t : datetime) (m : Message) : bool :=
  expires_gt t m || expires_null m.

(** [{"file_path": {"$ne": None}}] *)
Definition has_file_path (m : Message) : bool :=
  match file_path m with
  | Some _ => true
  | None => false
  end.

(** [find(q)] *)
Definition find (q : Message -> bool) (docs : list Message) : list Message :=
  List.filter q docs.

(** [delete_many(q)]: what is left, and [deleted_count]. *)
Definition delete_many (q : Message -> bool) (docs : list Message)
  : list Message * nat :=
  (List.filter (fun m => negb (q m)) docs, List.length (List.filter q docs)).

Definition timestamp_le (a b : Message) : Prop := timestamp a <= timestamp b.

#[global] Instance timestamp_le_dec : RelDecision timestamp_le.
Proof. intros a b. unfold timestamp_le. apply Z_le_dec. Defined.

(** [.sort("timestamp", 1)] *)
Definition sort_by_timestamp (docs : list Message) : list Message :=
  merge_sort timestamp_le docs.

(** [.to_list(n)] *)
Definition to_list (n : nat) (docs : list Message) : list Message :=
  List.firstn n docs.

End Mongo.

(** ** The upload directory *)

Definition UPLOAD_DIR : string := "uploads".

Module Fs.

(** [k] without the prefix [p], when it starts with it. *)
Fixpoint strip_prefix (p k : string) : option string :=
  match p, k with
  | EmptyString, _ => Some k
  | String a p', String b k' =>
      if Ascii.eqb a b then strip_prefix p' k' else None
  | String _ _, EmptyString => None
  end.

(** The regular files [dir.glob("*")] yields: the direct children. *)
Definition child_of (dir k : string) : bool :=
  match strip_prefix (dir ++ "/") k with
  | Some n => negb (String.eqb n "") && negb (PyStr.contains "/" n)
  | None => false
  end.

(** [Path(p).exists()] *)
Definition exists_ (p : string) : M bool :=
  w <- get ;; ret (bool_decide (is_Some (uploads w !! p))).

(** The longest file name the file system takes, in bytes
    ([NAME_MAX] of Linux file systems). *)
Definition NAME_MAX : nat := 255.

(** [errno.ENAMETOOLONG] *)
Definition ENAMETOOLONG : Z := 36.

(** Whether every component of [p] is within [NAME_MAX]. *)
Definition name_fits (p : string) : bool :=
  forallb (fun c => Nat.leb (String.length c) NAME_MAX) (PyStr.split "/" p).

(** [open(p, 'wb')], [write(data)]: [open] raises [OSError] when a
    component of [p] is too long, and then no file is made. *)
Definition write (p : string) (data : list Byte.byte) : M unit :=
  if name_fits p
  then w <- get ;;
       set_uploads (<[p := data]> (uploads w)) ;;;
       emit (EvFileWrite p (Z.of_nat (List.length data)))
  else raise (OSError ENAMETOOLONG).

(** [Path(p).unlink()] of a file that exists. *)
Definition unlink (p : string) : M unit :=
  w <- get ;;
  set_uploads (delete p (uploads w)) ;;;
  emit (EvFileUnlink p).

(** [UPLOAD_DIR.glob("*")] restricted to regular files. *)
Definition glob_files (dir : string) : M (list string) :=
  w <- get ;;
  ret (List.filter (child_of dir) (map fst (map_to_list (uploads w)))).

End Fs.

(** ** Background sweeps: one round of each loop *)

(** The body of [cleanup_expired_messages]'s [while True], up to the
    [sleep]. *)
Definition cleanup_expired_messages (env : Env) : M unit :=
  try_pass (
    let current_time := now env in
    w <- get ;;
    let '(rest, deleted_count) :=
      Mongo.delete_many (Mongo.expires_lt current_time) (db_messages w) in
    set_messages rest ;;;
    emit (EvDeleteMany deleted_count) ;;;
    (if Nat.ltb 0 deleted_count
     then ConnectionManager.broadcast (send_fails env) (Cleanup deleted_count)
     else ret tt) ;;;
    w <- get ;;
    let expired_messages :=
      Mongo.find (fun m => Mongo.expires_lt current_time m && Mongo.has_file_path m)
                 (db_messages w) in
    for_each expired_messages (fun msg =>
      let file_path := default "" (file_path msg) in
      present <- Fs.exists_ file_path ;;
      if present then Fs.unlink file_path else ret tt)).

(** The body of [auto_clear_all_messages]'s [while True], after the
    [sleep]. *)
Definition auto_clear_all_messages (env : Env) : M unit :=
  try_pass (
    w <- get ;;
    let '(rest, deleted_count) :=
      Mongo.delete_many (fun _ => true) (db_messages w) in
    set_messages rest ;;;
    emit (EvDeleteMany deleted_count) ;;;
    files <- Fs.glob_files UPLOAD_DIR ;;
    for_each files Fs.unlink ;;;
    ConnectionManager.broadcast (send_fails env)
      (AutoClear "All messages have been automatically cleared (1-hour cleanup)")).

(** ** Ingestion *)

(** [send_to_discord_webhook]: [True] on status 200 or 204, [False] on any
    other status and on any exception. *)
Definition send_to_discord_webhook (env : Env) (content : string)
    (file_path file_name : option string) : M bool :=
  w <- get ;;
  let with_file :=
    match file_path with
    | Some p => negb (String.eqb p "") && bool_decide (is_Some (uploads w !! p))
    | None => false
    end in
  match relay env with
  | RelayStatus status_code =>
      let ok := (status_code =? 200) || (status_code =? 204) in
      emit (EvRelay content with_file ok) ;;; ret ok
  | RelayRaises =>
      emit (EvRelay content with_file false) ;;; ret false
  end.

(** [file and file.filename]: the upload and its name when both are truthy. *)
Definition named_upload (file : option UploadFile) : option (UploadFile * string) :=
  match file with
  | Some f => if PyStr.truthy (filename f)
              then Some (f, default "" (filename f)) else None
  | None => None
  end.

(** [timedelta] and [datetime] arithmetic raise [OverflowError]. *)
Definition expiry_of (current : datetime) (ttl_seconds : Z) : M datetime :=
  match PyTime.after_seconds current ttl_seconds with
  | Some e => ret e
  | None => raise OverflowError
  end.

(** The body of [create_message]. *)
Definition create_message (env : Env) (content username : string)
    (ttl_seconds : Z) (send_to_discord : bool) (file : option UploadFile)
  : M Message :=
  (* Validate file if provided *)
  match named_upload file with
  | Some (_, fname) =>
      if negb (is_file_allowed fname)
      then raise (HTTPException 400 "File type not allowed") else ret tt
  | None => ret tt
  end ;;;
  (* Calculate expiration time *)
  expires_at <- expiry_of (now env) ttl_seconds ;;
  (* Handle file upload *)
  stored <-
    match named_upload file with
    | Some (f, fname) =>
        let file_id := uuid_file env in
        let file_extension := PyPath.suffix fname in
        let file_path := UPLOAD_DIR ++ "/" ++ file_id ++ file_extension in
        Fs.write file_path (payload f) ;;;
        ret (Some file_path, Some fname, Some (Z.of_nat (List.length (payload f))))
    | None => ret (None, None, None)
    end ;;
  let '(file_path, file_name, file_size) := stored in
  (* Create message *)
  let message :=
    mkMessage (uuid_msg env) content username (now_created env)
              (Some ttl_seconds) (Some expires_at)
              file_path file_name file_size in
  (* Save to database *)
  insert_one message ;;;
  emit (EvInsert message) ;;;
  (* Send to Discord if requested *)
  (if send_to_discord
   then let discord_content := "**" ++ username ++ "**: " ++ content in
        try_pass (_ <- send_to_discord_webhook env discord_content file_path file_name ;;
                  ret tt)
   else ret tt) ;;;
  (* Broadcast to all connected WebSocket clients *)
  ConnectionManager.broadcast (send_fails env) (NewMessage message) ;;;
  ret message.

(** The form of a [POST /messages] request; [None] is a field that was not
    sent. *)
Record Form := mkForm {
  form_content : option string;
  form_username : option string;
  form_ttl_seconds : option Z;
  form_send_to_discord : option bool;
  form_file : option UploadFile
}.

(** What the form layer makes of a text field: an empty value counts as
    one that was not sent. *)
Definition form_value (field : option string) : option string :=
  match field with
  | Some s => if String.eqb s "" then None else Some s
  | None => None
  end.

(** The required fields ([Form(...)]) that a form lacks. *)
Definition missing_fields (form : Form) : list string :=
  (match form_value (form_content form) with
   | None => ["content"] | Some _ => [] end) ++
  (match form_value (form_username form) with
   | None => ["username"] | Some _ => [] end).

(** The parameter declarations of [create_message]: [Form(...)] is a
    required field, [Form(3600)], [Form(False)] and [File(None)] give the
    defaults. The body runs only when no required field is missing; a
    request that lacks one is answered with the 422 of
    [RequestValidationError]. *)
Definition post_messages (env : Env) (form : Form) : M Message :=
  match form_value (form_content form), form_value (form_username form) with
  | Some content, Some username =>
      create_message env content username
        (default 3600 (form_ttl_seconds form))
        (default false (form_send_to_discord form))
        (form_file form)
  | _, _ => raise (RequestValidationError (missing_fields form))
  end.

(** ** Retrieval *)

(** [get_messages] *)
Definition get_messages (env : Env) : M (list Message) :=
  let current_time := now env in
  w <- get ;;
  let messages :=
    Mongo.to_list 1000
      (Mongo.sort_by_timestamp
         (Mongo.find (Mongo.live_query current_time) (db_messages w))) in
  ret messages.

(** ** The viewer's socket session *)

(** [websocket_endpoint]: [connect], then [receive_text] in a loop that
    drops what it reads, until the client's leaving raises
    [WebSocketDisconnect] and the handler calls [disconnect]. [received] is
    what the client sent before it left. *)
Definition websocket_endpoint (websocket : WebSocket) (received : list string)
  : M unit :=
  ConnectionManager.connect websocket ;;;
  for_each received (fun data => ret tt) ;;;
  ConnectionManager.disconnect websocket.

(** ** The API test client ([backend_test.py]) *)

Module Tester.

(** An entry of [self.test_results]. *)
Record TestResult := mkTestResult {
  name : string;
  success : bool;
  details : string
}.

(** The counters of [PhantomTalkAPITester]. *)
Record Counters := mkCounters {
  tests_run : nat;
  tests_passed : nat;
  test_results : list TestResult
}.

(** [__init__] *)
Definition init : Counters := mkCounters 0 0 [].

(** [log_test(name, success, details)] *)
Definition log_test (name : string) (success : bool) (details : string)
    (st : Counters) : Counters :=
  mkCounters (tests_run st + 1)
             (if success then (tests_passed st + 1)%nat else tests_passed st)
             (test_results st ++ [mkTestResult name success details]).

(** The verdict of [run_all_tests]: [self.tests_passed == self.tests_run]. *)
Definition verdict (st : Counters) : bool :=
  Nat.eqb (tests_passed st) (tests_run st).

(** A run of the tester, as the [log_test] calls it makes, in order. *)
Definition log_all (calls : list TestResult) (st : Counters) : Counters :=
  List.fold_left (fun st r => log_test (name r) (success r) (details r) st)
                 calls st.

(** [file_path.split('/')[-1].split('.')[0]] in [test_file_download]. *)
Definition file_id_of (file_path : string) : string :=
  List.hd "" (PyStr.split "." (List.last (PyStr.split "/" file_path) "")).

End Tester.

(** ** Observations used in the statements *)

(** A message is live at [t] when it has no expiry or expires after [t]. *)
Definition live (t : datetime) (m : Message) : Prop :=
  match expires_at m with
  | Some e => t < e
  | None => True
  end.

(** The per-socket events of a broadcast. *)
Definition is_send (ev : Event) : bool :=
  match ev with
  | EvSent _ _ | EvSendFailed _ _ => true
  | _ => false
  end.

Definition is_file_write (ev : Event) : bool :=
  match ev with
  | EvFileWrite _ _ => true
  | _ => false
  end.

(** The counts carried by the [cleanup] broadcasts of a trace. *)
Fixpoint cleanup_broadcasts (tr : list Event) : list nat :=
  match tr with
  | [] => []
  | EvBroadcast (Cleanup n) :: rest => n :: cleanup_broadcasts rest
  | _ :: rest => cleanup_broadcasts rest
  end.

(** What a handler appended to the trace of [w] to reach [w']. *)
Definition events_since (w w' : World) : list Event :=
  List.skipn (List.length (trace w)) (trace w').

(** The sockets an event was delivered to. *)
Fixpoint receivers (tr : list Event) : list WebSocket :=
  match tr with
  | [] => []
  | EvSent ws _ :: rest => ws :: receivers rest
  | _ :: rest => receivers rest
  end.

(** Position of the first event of a kind in a trace. *)
Fixpoint first_index (p : Event -> bool) (tr : list Event) : option nat :=
  match tr with
  | [] => None
  | ev :: rest => if p ev then Some O else option_map S (first_index p rest)
  end.

Definition is_relay (ev : Event) : bool :=
  match ev with EvRelay _ _ _ => true | _ => false end.

Definition is_new_message_broadcast (ev : Event) : bool :=
  match ev with EvBroadcast (NewMessage _) => true | _ => false end.

Definition is_insert (ev : Event) : bool :=
  match ev with EvInsert _ => true | _ => false end.

(** Whether the webhook call counts as delivered. *)
Definition relay_ok (r : RelayOutcome) : bool :=
  match r with
  | RelayStatus status_code => (status_code =? 200) || (status_code =? 204)
  | RelayRaises => false
  end.

(** The sockets a broadcast tried, in the order it tried them. *)
Fixpoint attempted (tr : list Event) : list WebSocket :=
  match tr with
  | [] => []
  | EvSent ws _ :: rest => ws :: attempted rest
  | EvSendFailed ws _ :: rest => ws :: attempted rest
  | _ :: rest => attempted rest
  end.

(** The path [create_message] stores an upload named [fname] under. *)
Definition stored_path (env : Env) (fname : string) : string :=
  UPLOAD_DIR ++ "/" ++ uuid_file env ++ PyPath.suffix fname.

(** The request carries no named upload, or one whose stored name the file
    system takes. *)
Definition upload_fits (env : Env) (file : option UploadFile) : bool :=
  match named_upload file with
  | Some (_, fname) => Fs.name_fits (stored_path env fname)
  | None => true
  end.

(** The request carries no named upload, or one the deny-list lets through. *)
Definition upload_allowed (file : option UploadFile) : bool :=
  match named_upload file with
  | Some (_, fname) => is_file_allowed fname
  | None => true
  end.

(** The same environment with another outcome of the webhook call. *)
Definition with_relay (r : RelayOutcome) (env : Env) : Env :=
  mkEnv (now env) (now_created env) (uuid_file env) (uuid_msg env)
        (send_fails env) r.

(** The sockets on which a send failed. *)
Fixpoint failed_sockets (tr : list Event) : list WebSocket :=
  match tr with
  | [] => []
  | EvSendFailed ws _ :: rest => ws :: failed_sockets rest
  | _ :: rest => failed_sockets rest
  end.

(** The events handed to [manager.broadcast]. *)
Fixpoint broadcasts (tr : list Event) : list WireEvent :=
  match tr with
  | [] => []
  | EvBroadcast e :: rest => e :: broadcasts rest
  | _ :: rest => broadcasts rest
  end.

(** The paths unlinked. *)
Fixpoint unlinked (tr : list Event) : list string :=
  match tr with
  | [] => []
  | EvFileUnlink p :: rest => p :: unlinked rest
  | _ :: rest => unlinked rest
  end.

(** ** Concrete worlds and requests *)

Module Sample.

(** 2025-01-01T00:00:00Z, in microseconds since 0001-01-01. *)
Definition T0 : datetime := 63871286400000000.

Definition seconds (n : Z) : Z := n * PyTime.US_PER_SECOND.

(** No socket fails. *)
Definition quiet : WebSocket -> bool := fun _ => false.

Definition env_at (t : datetime) : Env :=
  mkEnv t t "5f0c" "9a1e" quiet (RelayStatus 204).

Definition hello : list Byte.byte := [Byte.x68; Byte.x69].

(** A message created at [T0] with a one-minute lifetime and a stored
    attachment. *)
Definition with_attachment : Message :=
  mkMessage "m-1" "see attachment" "alice" T0 (Some 60)
            (Some (T0 + seconds 60))
            (Some "uploads/a1.txt") (Some "notes.txt") (Some 2).

(** A message created at [T0] that lives for an hour. *)
Definition long_lived : Message :=
  mkMessage "m-2" "still here" "bob" T0 (Some 3600)
            (Some (T0 + seconds 3600)) None None None.

Definition stale_world : World :=
  mkWorld [with_attachment; long_lived]
          {[ "uploads/a1.txt" := hello ]} [] [].

(** A thousand and one messages, the [i]-th created [i] milliseconds
    after [T0], each with an hour to live. *)
Definition crowd_member (i : nat) : Message :=
  mkMessage (NilZero.string_of_uint (Nat.to_uint i)) "hi" "carol"
            (T0 + Z.of_nat i * 1000) (Some 3600)
            (Some (T0 + Z.of_nat i * 1000 + seconds 3600)) None None None.

Definition crowd : World :=
  mkWorld (List.map crowd_member (List.seq 0 1001)) ∅ [] [].

Definition empty_world : World := mkWorld [] ∅ [] [].

(** A text-only form that leaves [ttl_seconds] out. *)
Definition form_without_ttl : Form :=
  mkForm (Some "no lifetime given") (Some "dave") None None None.

(** What that form stores when it is posted at [T0]. *)
Definition stored_without_ttl : Message :=
  mkMessage "9a1e" "no lifetime given" "dave" T0 (Some 3600)
            (Some (T0 + seconds 3600)) None None None.

(** A document with no expiry, as another writer could have stored it. *)
Definition unexpiring : Message :=
  mkMessage "m-3" "pinned" "root" T0 None None None None None.

Definition pinned_world : World :=
  mkWorld [with_attachment; unexpiring] {[ "uploads/a1.txt" := hello ]} [] [].

(** One viewer is connected. *)
Definition one_viewer : World := mkWorld [] ∅ [7%nat] [].

(** A file name whose extension is 300 characters long. *)
Definition long_name : string :=
  "a." ++ string_of_list_ascii (List.repeat "x"%char 300).

(** The list a handler returned, [[]] when it raised. *)
Definition returned (r : Outcome (list Message) * World) : list Message :=
  match fst r with
  | Ret ms => ms
  | Raise _ => []
  end.

End Sample.

(** * Properties *)

Ltac run_monad :=
  unfold bind, ret, get, emit, raise, set_messages, set_uploads,
    set_connections, try_pass; simpl.

Example suffix_txt : PyPath.suffix "notes.txt" = ".txt".
Proof. reflexivity. Qed.

Example suffix_hidden : PyPath.suffix ".php" = "".
Proof. reflexivity. Qed.

Example suffix_double : PyPath.suffix "a/b/archive.tar.sh" = ".sh".
Proof. reflexivity. Qed.

Example allowed_txt : is_file_allowed "test_file.txt" = true.
Proof. vm_compute. reflexivity. Qed.

Example blocked_php : is_file_allowed "malicious.php" = false.
Proof. vm_compute. reflexivity. Qed.

(** ** BSON dates and the collection *)

Section BsonFacts.

Lemma millis_of_millis (ms : Z) : Bson.millis (Bson.of_millis ms) = ms.
Proof. unfold Bson.millis, Bson.of_millis. apply Z.div_mul. lia. Qed.

Lemma date_le (d : datetime) : Bson.date d <= d.
Proof.
  unfold Bson.date, Bson.of_millis, Bson.millis.
  pose proof (Z.mul_div_le d 1000 ltac:(lia)). lia.
Qed.

Lemma date_within (d : datetime) : d < Bson.date d + 1000.
Proof.
  unfold Bson.date, Bson.of_millis, Bson.millis.
  pose proof (Z.div_mod d 1000 ltac:(lia)).
  pose proof (Z.mod_pos_bound d 1000 ltac:(lia)). lia.
Qed.

Lemma date_mono (d1 d2 : datetime) : d1 <= d2 -> Bson.date d1 <= Bson.date d2.
Proof.
  intros H. unfold Bson.date, Bson.of_millis, Bson.millis.
  pose proof (Z.div_le_mono d1 d2 1000 ltac:(lia) H). lia.
Qed.

Lemma date_of_millis (ms : Z) : Bson.date (Bson.of_millis ms) = Bson.of_millis ms.
Proof. unfold Bson.date. now rewrite millis_of_millis. Qed.

Lemma date_idem (d : datetime) : Bson.date (Bson.date d) = Bson.date d.
Proof. apply date_of_millis. Qed.

(** Against a whole millisecond, cutting the other side changes nothing. *)
Lemma whole_lt_date (e t : datetime) :
  Bson.date e = e -> (e < Bson.date t <-> e + 1000 <= t).
Proof.
  intros He. unfold Bson.date, Bson.of_millis, Bson.millis in *.
  pose proof (Z.div_mod t 1000 ltac:(lia)).
  pose proof (Z.mod_pos_bound t 1000 ltac:(lia)). lia.
Qed.

Lemma date_lt_whole (e t : datetime) :
  Bson.date e = e -> (Bson.date t < e <-> t < e).
Proof.
  intros He. unfold Bson.date, Bson.of_millis, Bson.millis in *.
  pose proof (Z.div_mod t 1000 ltac:(lia)).
  pose proof (Z.mod_pos_bound t 1000 ltac:(lia)). lia.
Qed.

Lemma encode_decode (d : Bson.Document) : Bson.encode (Bson.decode d) = d.
Proof.
  destruct d as [i c u t ttl e fp fn fz]. unfold Bson.encode, Bson.decode. simpl.
  rewrite millis_of_millis. destruct e as [e|]; simpl;
    [rewrite millis_of_millis|]; reflexivity.
Qed.

Lemma through_decode (d : Bson.Document) :
  Bson.through (Bson.decode d) = Bson.decode d.
Proof. unfold Bson.through. now rewrite encode_decode. Qed.

Lemma through_idem (m : Message) : Bson.through (Bson.through m) = Bson.through m.
Proof. unfold Bson.through at 1 2. now rewrite encode_decode. Qed.

Lemma map_encode_decode (ds : list Bson.Document) :
  List.map Bson.encode (List.map Bson.decode ds) = ds.
Proof.
  induction ds as [|d l IH]; simpl; [reflexivity|].
  now rewrite encode_decode, IH.
Qed.

Lemma mkWorld_db (w : World) fs cs tr :
  mkWorld (db_messages w) fs cs tr = Build_World (db_docs w) fs cs tr.
Proof. unfold mkWorld, db_messages. now rewrite map_encode_decode. Qed.

Lemma mkWorld_eta (w : World) :
  mkWorld (db_messages w) (uploads w) (active_connections w) (trace w) = w.
Proof. rewrite mkWorld_db. destruct w; reflexivity. Qed.

Lemma db_messages_mkWorld (ms : list Message) fs cs tr :
  db_messages (mkWorld ms fs cs tr) = List.map Bson.through ms.
Proof. unfold db_messages, mkWorld. simpl. now rewrite List.map_map. Qed.

(** What the collection holds reads back as itself. *)
Lemma stored_through (w : World) (m : Message) :
  In m (db_messages w) -> Bson.through m = m.
Proof.
  unfold db_messages. intros Hin. apply List.in_map_iff in Hin.
  destruct Hin as (d & <- & _). apply through_decode.
Qed.

Lemma stored_expiry_whole (w : World) (m : Message) (e : datetime) :
  In m (db_messages w) -> expires_at m = Some e -> Bson.date e = e.
Proof.
  intros Hin He. apply stored_through in Hin.
  unfold Bson.through, Bson.decode, Bson.encode in Hin. simpl in Hin.
  apply (f_equal expires_at) in Hin. simpl in Hin. rewrite He in Hin.
  simpl in Hin. injection Hin as Hin. exact Hin.
Qed.

Lemma map_through_stored (l : list Message) :
  (forall m, In m l -> Bson.through m = m) -> List.map Bson.through l = l.
Proof.
  induction l as [|m t IH]; simpl; intros H; [reflexivity|].
  rewrite (H m) by auto. rewrite IH by auto. reflexivity.
Qed.

(** Keeping some of the stored messages stores them as they are. *)
Lemma db_messages_kept (w : World) (q : Message -> bool) fs cs tr :
  db_messages (mkWorld (List.filter q (db_messages w)) fs cs tr) =
  List.filter q (db_messages w).
Proof.
  rewrite db_messages_mkWorld. apply map_through_stored.
  intros m Hin. apply List.filter_In in Hin. destruct Hin as [Hin _].
  eapply stored_through; eassumption.
Qed.

End BsonFacts.

(** ** Lower-casing commutes with taking the suffix *)

Section LowerSuffix.

Lemma lower_char_slash (c : ascii) :
  Ascii.eqb (PyStr.lower_char c) "/" = Ascii.eqb c "/".
Proof. destruct c as [[] [] [] [] [] [] [] []]; reflexivity. Qed.

Lemma lower_char_dot (c : ascii) :
  Ascii.eqb (PyStr.lower_char c) "." = Ascii.eqb c ".".
Proof. destruct c as [[] [] [] [] [] [] [] []]; reflexivity. Qed.

Lemma lower_length (s : string) :
  String.length (PyStr.lower s) = String.length s.
Proof. induction s as [|c r IH]; simpl; congruence. Qed.

Lemma lower_split (s : string) :
  PyStr.split "/" (PyStr.lower s) = List.map PyStr.lower (PyStr.split "/" s).
Proof.
  induction s as [|c r IH]; simpl; [reflexivity|].
  rewrite lower_char_slash, IH.
  destruct (Ascii.eqb c "/"); [reflexivity|].
  destruct (PyStr.split "/" r); reflexivity.
Qed.

Lemma lower_keep_part (x : string) :
  PyPath.keep_part (PyStr.lower x) = PyPath.keep_part x.
Proof.
  unfold PyPath.keep_part.
  destruct x as [|c r]; simpl; [reflexivity|].
  rewrite lower_char_dot. destruct r; reflexivity.
Qed.

Lemma lower_parts (p : string) :
  PyPath.parts (PyStr.lower p) = List.map PyStr.lower (PyPath.parts p).
Proof.
  unfold PyPath.parts. rewrite lower_split.
  induction (PyStr.split "/" p) as [|x l IH]; simpl; [reflexivity|].
  rewrite lower_keep_part, IH. destruct (PyPath.keep_part x); reflexivity.
Qed.

Lemma last_map_lower (l : list string) :
  List.last (List.map PyStr.lower l) "" = PyStr.lower (List.last l "").
Proof.
  induction l as [|x l IH]; simpl; [reflexivity|].
  destruct l; simpl in *; [reflexivity | exact IH].
Qed.

Lemma lower_name (p : string) :
  PyPath.name (PyStr.lower p) = PyStr.lower (PyPath.name p).
Proof. unfold PyPath.name. rewrite lower_parts. apply last_map_lower. Qed.

Lemma lower_rfind_dot (s : string) :
  PyStr.rfind "." (PyStr.lower s) = PyStr.rfind "." s.
Proof.
  induction s as [|c r IH]; simpl; [reflexivity|].
  rewrite IH, lower_char_dot. reflexivity.
Qed.

Lemma lower_drop (n : nat) (s : string) :
  PyStr.drop n (PyStr.lower s) = PyStr.lower (PyStr.drop n s).
Proof.
  revert s; induction n as [|n IH]; intros s; [reflexivity|].
  destruct s; simpl; [reflexivity | apply IH].
Qed.

Lemma lower_suffix (p : string) :
  PyPath.suffix (PyStr.lower p) = PyStr.lower (PyPath.suffix p).
Proof.
  unfold PyPath.suffix, PyStr.slice_from, PyStr.len.
  rewrite lower_name, lower_rfind_dot, lower_length, lower_drop.
  destruct (_ && _); reflexivity.
Qed.

Lemma lower_char_idem (c : ascii) :
  PyStr.lower_char (PyStr.lower_char c) = PyStr.lower_char c.
Proof. destruct c as [[] [] [] [] [] [] [] []]; reflexivity. Qed.

Lemma lower_idem (s : string) : PyStr.lower (PyStr.lower s) = PyStr.lower s.
Proof.
  induction s as [|c r IH]; simpl; [reflexivity|].
  now rewrite lower_char_idem, IH.
Qed.

End LowerSuffix.

Lemma is_file_allowed_false (filename : string) :
  is_file_allowed filename = false <->
  PyStr.lower (PyPath.suffix filename) ∈ BLOCKED_EXTENSIONS.
Proof.
  unfold is_file_allowed. rewrite bool_decide_eq_false.
  split; [apply dec_stable | tauto].
Qed.

(** ** File names that end in a deny-listed extension *)

Section NamedExtension.

Ltac step_append :=
  repeat match goal with
    | |- context [String.append (String ?a ?r) ?t] =>
        change (String.append (String a r) t) with (String a (String.append r t))
    | |- context [String.append EmptyString ?t] =>
        change (String.append EmptyString t) with t
    end.

Lemma split_no_slash (s : string) :
  PyStr.contains "/" s = false -> PyStr.split "/" s = [s].
Proof.
  induction s as [|c r IH]; simpl; [reflexivity|].
  intros H. apply orb_false_iff in H as [Hc Hr].
  rewrite Hc, (IH Hr). reflexivity.
Qed.

Lemma contains_app (c : ascii) (s t : string) :
  PyStr.contains c (s ++ t) = PyStr.contains c s || PyStr.contains c t.
Proof.
  induction s as [|a r IH]; step_append; simpl; [reflexivity|].
  now rewrite IH, orb_assoc.
Qed.

Lemma rfind_absent (c : ascii) (s : string) :
  PyStr.contains c s = false -> PyStr.rfind c s = -1.
Proof.
  induction s as [|a r IH]; simpl; [reflexivity|].
  intros H. apply orb_false_iff in H as [Ha Hr].
  rewrite (IH Hr), Ha. reflexivity.
Qed.

Lemma rfind_app_found (c : ascii) (s t : string) :
  0 <= PyStr.rfind c t ->
  PyStr.rfind c (s ++ t) = PyStr.len s + PyStr.rfind c t.
Proof.
  intros Ht. unfold PyStr.len.
  induction s as [|a r IH]; step_append; [simpl; lia|].
  cbn [PyStr.rfind String.length]. rewrite IH.
  destruct (Z.leb_spec 0 (Z.of_nat (String.length r) + PyStr.rfind c t)); lia.
Qed.

Lemma str_drop_app_length (s t : string) :
  PyStr.drop (String.length s) (s ++ t) = t.
Proof.
  induction s as [|a r IH]; step_append; simpl;
    [destruct t; reflexivity | exact IH].
Qed.

Lemma str_length_app (s t : string) :
  String.length (s ++ t) = (String.length s + String.length t)%nat.
Proof. induction s as [|a r IH]; step_append; simpl; congruence. Qed.

(** The suffix of [stem ++ "." ++ rest] when the stem is a non-empty file
    name and [rest] is a non-empty run without dots. *)
Lemma suffix_of_named (stem rest : string) :
  stem <> "" -> PyStr.contains "/" stem = false ->
  rest <> "" -> PyStr.contains "." rest = false ->
  PyStr.contains "/" rest = false ->
  PyPath.suffix (stem ++ String "." rest) = String "." rest.
Proof.
  intros Hstem Hslash Hrest Hdot Hslash'.
  set (ext := String "." rest).
  assert (Hname : PyPath.name (stem ++ ext) = stem ++ ext).
  { unfold PyPath.name, PyPath.parts.
    rewrite split_no_slash
      by (rewrite contains_app; subst ext; simpl; now rewrite Hslash, Hslash').
    simpl. unfold PyPath.keep_part.
    destruct stem as [|a [|b stem']]; [congruence| |]; subst ext;
      step_append; simpl.
    - destruct rest; [congruence|].
      destruct (Ascii.eqb a "."); reflexivity.
    - destruct (Ascii.eqb a "."); reflexivity. }
  assert (Hfind : PyStr.rfind "." ext = 0).
  { subst ext. simpl. now rewrite (rfind_absent _ _ Hdot). }
  unfold PyPath.suffix. rewrite Hname.
  rewrite rfind_app_found by lia. rewrite Hfind.
  unfold PyStr.len, PyStr.slice_from.
  rewrite str_length_app, Z.add_0_r, Nat2Z.id, str_drop_app_length.
  assert (0 < String.length stem)%nat by (destruct stem; [congruence | simpl; lia]).
  assert (1 < String.length ext)%nat
    by (subst ext; destruct rest; [congruence | simpl; lia]).
  destruct (Z.ltb_spec 0 (Z.of_nat (String.length stem))); [|lia].
  destruct (Z.ltb_spec (Z.of_nat (String.length stem))
              (Z.of_nat (String.length stem + String.length ext) - 1)); [|lia].
  reflexivity.
Qed.

(** A name that lower-cases to a deny-listed extension is a dot followed by
    letters. *)
Lemma blocked_extension_shape (ext : string) :
  PyStr.lower ext ∈ BLOCKED_EXTENSIONS ->
  exists rest, ext = String "." rest /\ rest <> "" /\
               PyStr.contains "." rest = false /\
               PyStr.contains "/" rest = false.
Proof.
  intros Hin.
  assert (Hlen : (3 <= String.length ext <= 6)%nat /\
                 PyStr.contains "." (PyStr.drop 1 (PyStr.lower ext)) = false /\
                 PyStr.contains "/" (PyStr.lower ext) = false /\
                 PyStr.rfind "." (PyStr.lower ext) = 0).
  { rewrite <- lower_length.
    unfold BLOCKED_EXTENSIONS in Hin.
    rewrite !elem_of_union, !elem_of_singleton in Hin.
    destruct Hin as [[-> | ->] | ->];
      repeat split; try (vm_compute; reflexivity); simpl; lia. }
  destruct Hlen as (Hl & Hd & Hs & Hr).
  destruct ext as [|c rest]; [simpl in Hl; lia|].
  assert (Hc : c = "."%char).
  { simpl in Hr, Hd. rewrite (rfind_absent _ _ Hd) in Hr. simpl in Hr.
    rewrite lower_char_dot in Hr.
    destruct (Ascii.eqb_spec c "."); [assumption | discriminate]. }
  subst c. exists rest. split; [reflexivity|].
  split; [destruct rest; [simpl in Hl; lia | congruence]|].
  simpl in Hd, Hs. split.
  - clear -Hd. induction rest as [|a r IH]; simpl in *; [reflexivity|].
    apply orb_false_iff in Hd as [Ha Hr]. rewrite lower_char_dot in Ha.
    now rewrite Ha, IH.
  - clear -Hs. induction rest as [|a r IH]; simpl in *; [reflexivity|].
    apply orb_false_iff in Hs as [Ha Hr]. rewrite lower_char_slash in Ha.
    now rewrite Ha, IH.
Qed.

(** Any non-empty file name followed by a deny-listed extension, in any
    case, is refused. *)
Lemma named_blocked_extension_refused (stem ext : string) :
  stem <> "" -> PyStr.contains "/" stem = false ->
  PyStr.lower ext ∈ BLOCKED_EXTENSIONS ->
  is_file_allowed (stem ++ ext) = false.
Proof.
  intros Hstem Hslash Hin.
  destruct (blocked_extension_shape ext Hin) as (rest & -> & Hne & Hdot & Hsl).
  apply is_file_allowed_false.
  now rewrite suffix_of_named.
Qed.

End NamedExtension.

(** C10. The deny-list check ignores case: a file name is refused exactly
    when its lower-cased extension is on the deny-list, so a name and its
    lower-case form get the same verdict; [x.PHP], [x.Phtml] and [x.SH] are
    refused. *)
Theorem is_file_allowed_ignores_case :
  (forall filename : string,
      (is_file_allowed filename = false <->
       PyStr.lower (PyPath.suffix filename) ∈ BLOCKED_EXTENSIONS) /\
      is_file_allowed filename = is_file_allowed (PyStr.lower filename)) /\
  is_file_allowed "x.PHP" = false /\
  is_file_allowed "x.Phtml" = false /\
  is_file_allowed "x.SH" = false.
Proof.
  split; [|repeat split; vm_compute; reflexivity].
  intros filename. split; [apply is_file_allowed_false|].
  unfold is_file_allowed. now rewrite lower_suffix, lower_idem.
Qed.

(** ** The registry: what a broadcast touches, and that its loop ends *)

Section Registry.
Import ConnectionManager.

Lemma list_remove_nth (cs : list WebSocket) (i : nat) (c : WebSocket) :
  nth_error cs i = Some c ->
  exists cs', list_remove c cs = Some cs' /\ S (List.length cs') = List.length cs.
Proof.
  revert i; induction cs as [|y t IH]; intros i H.
  - destruct i; discriminate.
  - simpl. destruct (Nat.eqb c y) eqn:E.
    + eexists; split; reflexivity.
    + destruct i as [|i]; simpl in H.
      * injection H as ->. rewrite Nat.eqb_refl in E. discriminate.
      * destruct (IH i H) as (cs' & -> & L).
        eexists; split; [reflexivity | simpl; congruence].
Qed.

Lemma broadcast_loop_frame fails message (fuel : nat) :
  forall (i : nat) (cs : list WebSocket),
  exists cs' sends,
    forallb is_send sends = true /\
    (List.length cs' <= List.length cs)%nat /\
    forall w : World,
      active_connections w = cs ->
      broadcast_loop fails message fuel i w =
        (Ret tt, Build_World (db_docs w) (uploads w) cs' (trace w ++ sends)).
Proof.
  induction fuel as [|fuel IH]; intros i cs.
  - exists cs, []. repeat split; auto.
    intros w <-. simpl. rewrite app_nil_r. destruct w; reflexivity.
  - simpl. destruct (nth_error cs i) as [c|] eqn:Hn.
    2:{ exists cs, []. repeat split; auto. intros w <-. run_monad.
        rewrite Hn, app_nil_r. destruct w; reflexivity. }
    destruct (fails c) eqn:Hf.
    + destruct (list_remove_nth _ _ _ Hn) as (cs1 & Hrm & L).
      destruct (IH (S i) cs1) as (cs' & sends & Hs & Hl & Hrun).
      exists cs', (EvSendFailed c message :: sends).
      repeat split; [exact Hs | lia |].
      intros w <-. run_monad. rewrite Hn, Hf. unfold remove. run_monad.
      rewrite Hrm. simpl. rewrite Hrun by reflexivity. simpl.
      now rewrite <- app_assoc.
    + destruct (IH (S i) cs) as (cs' & sends & Hs & Hl & Hrun).
      exists cs', (EvSent c message :: sends).
      repeat split; [exact Hs | exact Hl |].
      intros w <-. run_monad. rewrite Hn, Hf. simpl.
      rewrite Hrun by reflexivity. simpl. now rewrite <- app_assoc.
Qed.

(** What a broadcast does depends on the registry alone; it touches
    neither the message store nor the upload directory. *)
Lemma broadcast_frame fails message (cs : list WebSocket) :
  exists cs' sends,
    forallb is_send sends = true /\
    forall w : World,
      active_connections w = cs ->
      broadcast fails message w =
        (Ret tt, Build_World (db_docs w) (uploads w) cs'
                         (trace w ++ EvBroadcast message :: sends)).
Proof.
  destruct (broadcast_loop_frame fails message (List.length cs) 0 cs)
    as (cs' & sends & Hs & _ & Hrun).
  exists cs', sends. split; [exact Hs|].
  intros w <-. unfold broadcast. run_monad.
  rewrite Hrun by reflexivity. simpl. now rewrite <- app_assoc.
Qed.

(** The loop stops because the iterator is exhausted, not because the
    bound on its rounds is reached: more rounds change nothing. *)
Lemma broadcast_loop_fuel fails message (fuel : nat) :
  forall (extra i : nat) (w : World),
    (List.length (active_connections w) - i <= fuel)%nat ->
    broadcast_loop fails message (fuel + extra) i w =
    broadcast_loop fails message fuel i w.
Proof.
  induction fuel as [|fuel IH]; intros extra i w Hlen.
  - destruct extra; [reflexivity|]. simpl. run_monad.
    destruct (nth_error (active_connections w) i) eqn:Hn; [|reflexivity].
    assert (i < List.length (active_connections w))%nat
      by (apply nth_error_Some; congruence).
    lia.
  - simpl. run_monad.
    destruct (nth_error (active_connections w) i) as [c|] eqn:Hn; [|reflexivity].
    destruct (fails c).
    + unfold remove. run_monad.
      destruct (list_remove_nth _ _ _ Hn) as (cs' & -> & L). simpl.
      apply IH. simpl. lia.
    + apply IH. simpl. lia.
Qed.
End Registry.

Lemma events_since_app (w w' : World) (evs : list Event) :
  trace w' = (trace w ++ evs)%list -> events_since w w' = evs.
Proof. unfold events_since. intros ->. apply drop_app_length. Qed.

Section Healthy.
Import ConnectionManager.

Lemma skipn_nth_error_cons {A} (l : list A) (i : nat) (x : A) :
  nth_error l i = Some x -> List.skipn i l = x :: List.skipn (S i) l.
Proof.
  revert i; induction l as [|y t IH]; intros [|i] H; simpl in *; try discriminate.
  - now injection H as ->.
  - now apply IH.
Qed.

Lemma skipn_nth_error_nil {A} (l : list A) (i : nat) :
  nth_error l i = None -> List.skipn i l = [].
Proof. intros H. apply List.skipn_all2. now apply nth_error_None. Qed.

(** When no send fails, the loop delivers to every socket from index [i]
    on, in registry order, and leaves the registry as it is. *)
Lemma broadcast_loop_healthy fails message (cs : list WebSocket) :
  (forall c, In c cs -> fails c = false) ->
  forall (fuel i : nat) (w : World),
    active_connections w = cs ->
    (List.length cs - i <= fuel)%nat ->
    broadcast_loop fails message fuel i w =
      (Ret tt,
       Build_World (db_docs w) (uploads w) cs
               (trace w ++ List.map (fun c => EvSent c message) (List.skipn i cs))).
Proof.
  intros Hok. induction fuel as [|fuel IH]; intros i w Hcs Hfuel.
  - simpl. rewrite List.skipn_all2 by lia. simpl.
    rewrite app_nil_r. subst cs. destruct w; reflexivity.
  - simpl. run_monad. rewrite Hcs.
    destruct (nth_error cs i) as [c|] eqn:Hn.
    + rewrite (Hok c) by (eapply nth_error_In; eassumption). simpl.
      rewrite IH by (simpl; first [assumption | lia]). simpl.
      rewrite (skipn_nth_error_cons _ _ _ Hn). simpl.
      now rewrite <- app_assoc.
    + rewrite (skipn_nth_error_nil _ _ Hn). simpl.
      rewrite app_nil_r. subst cs. destruct w; reflexivity.
Qed.

Lemma broadcast_healthy fails message (w : World) :
  (forall c, In c (active_connections w) -> fails c = false) ->
  let w' := snd (broadcast fails message w) in
  receivers (events_since w w') = active_connections w /\
  active_connections w' = active_connections w.
Proof.
  intros Hok w'. subst w'. unfold broadcast. run_monad.
  rewrite (broadcast_loop_healthy fails message (active_connections w) Hok)
    by (simpl; first [reflexivity | lia]).
  simpl. split; [|reflexivity].
  erewrite events_since_app by (simpl; rewrite <- app_assoc; reflexivity).
  simpl. clear Hok. rewrite List.skipn_O.
  induction (active_connections w) as [|c l IHl]; simpl; [reflexivity|].
  now rewrite IHl.
Qed.

End Healthy.

(** ** The registry: a broken socket *)

(** C6. With sockets 1, 2 and 3 registered and the send to socket 1
    failing, a broadcast removes socket 1 and delivers to socket 3 only:
    socket 2, whose send would succeed, is passed over. *)
Theorem broadcast_passes_over_next_socket :
  let fails := fun ws : WebSocket => Nat.eqb ws 1 in
  let w := mkWorld [] ∅ [1%nat; 2%nat; 3%nat] [] in
  let w' := snd (ConnectionManager.broadcast fails (Cleanup 1) w) in
  fails 2%nat = false /\
  receivers (trace w') = [3%nat] /\
  active_connections w' = [2%nat; 3%nat].
Proof. vm_compute. auto. Qed.

Lemma disconnect_absent (c : WebSocket) (w : World) :
  ~ In c (active_connections w) ->
  ConnectionManager.disconnect c w = (Raise ValueError, w).
Proof.
  unfold ConnectionManager.disconnect, ConnectionManager.remove. run_monad.
  intros Hnot.
  assert (H : ConnectionManager.list_remove c (active_connections w) = None).
  { induction (active_connections w) as [|y t IH]; simpl in *; [reflexivity|].
    destruct (Nat.eqb c y) eqn:E.
    - apply Nat.eqb_eq in E. subst. tauto.
    - rewrite IH; tauto. }
  now rewrite H.
Qed.

(** C9. Socket 1 connects, a broadcast fails on it and removes it from the
    registry; the [disconnect] that follows raises [ValueError] (and leaves
    the registry as it was). *)
Theorem disconnect_after_failed_send_raises :
  let fails := fun ws : WebSocket => Nat.eqb ws 1 in
  let w0 := mkWorld [] ∅ [2%nat] [] in
  let w1 := snd (ConnectionManager.connect 1%nat w0) in
  let w2 := snd (ConnectionManager.broadcast fails (Cleanup 1) w1) in
  active_connections w1 = [2%nat; 1%nat] /\
  active_connections w2 = [2%nat] /\
  ConnectionManager.disconnect 1%nat w2 = (Raise ValueError, w2).
Proof. vm_compute. auto. Qed.

(** ** The expiration sweep *)

Section Sweep.

Lemma find_after_delete (q h : Message -> bool) (docs : list Message) :
  Mongo.find (fun m => q m && h m) (fst (Mongo.delete_many q docs)) = [].
Proof.
  unfold Mongo.find, Mongo.delete_many; simpl.
  induction docs as [|m l IH]; simpl; [reflexivity|].
  destruct (q m) eqn:E; simpl; [exact IH|]. rewrite E. exact IH.
Qed.

Lemma encoded_kept (w : World) (q : Message -> bool) :
  List.map Bson.decode (List.map Bson.encode (List.filter q (db_messages w))) =
  List.filter q (db_messages w).
Proof. exact (db_messages_kept w q ∅ [] []). Qed.

(** One round of the sweep, in closed form. *)
Lemma cleanup_round (env : Env) (w : World) :
  let q := Mongo.expires_lt (now env) in
  let n := List.length (List.filter q (db_messages w)) in
  exists cs sends,
    cleanup_expired_messages env w =
      (Ret tt,
       mkWorld (List.filter (fun m => negb (q m)) (db_messages w))
               (uploads w) cs
               (trace w ++ EvDeleteMany n ::
                  (if Nat.ltb 0 n then EvBroadcast (Cleanup n) :: sends else []))) /\
    forallb is_send sends = true.
Proof.
  intros q n. unfold cleanup_expired_messages. run_monad.
  pose proof (find_after_delete q Mongo.has_file_path (db_messages w)) as Hnil.
  unfold Mongo.delete_many in Hnil; simpl in Hnil.
  fold q. fold n.
  destruct (Nat.ltb 0 n) eqn:Hn.
  - destruct (broadcast_frame (send_fails env) (Cleanup n) (active_connections w))
      as (cs & sends & Hs & Hrun).
    rewrite Hrun by reflexivity.
    simpl. unfold db_messages at 1. simpl. rewrite encoded_kept, Hnil. simpl.
    exists cs, sends. unfold mkWorld. rewrite <- app_assoc. simpl. auto.
  - simpl. unfold db_messages at 1. simpl. rewrite encoded_kept, Hnil. simpl.
    exists (active_connections w), []. auto.
Qed.

Lemma cleanup_keeps_uploads (env : Env) (w : World) :
  uploads (snd (cleanup_expired_messages env w)) = uploads w.
Proof.
  destruct (cleanup_round env w) as (cs & sends & -> & _). reflexivity.
Qed.

Lemma cleanup_messages (env : Env) (w : World) :
  db_messages (snd (cleanup_expired_messages env w)) =
  List.filter (fun m => negb (Mongo.expires_lt (now env) m)) (db_messages w).
Proof.
  destruct (cleanup_round env w) as (cs & sends & -> & _).
  apply db_messages_kept.
Qed.

End Sweep.

Lemma cleanup_broadcasts_sends (sends : list Event) :
  forallb is_send sends = true -> cleanup_broadcasts sends = [].
Proof.
  induction sends as [|ev l IH]; simpl; [reflexivity|].
  destruct ev; simpl; try discriminate; exact IH.
Qed.

Lemma cleanup_spares_unexpiring (env : Env) (w : World) (m : Message) :
  In m (db_messages w) -> expires_at m = None ->
  In m (db_messages (snd (cleanup_expired_messages env w))).
Proof.
  intros Hin Hnone. rewrite cleanup_messages.
  apply List.filter_In. split; [exact Hin|].
  unfold Mongo.expires_lt. now rewrite Hnone.
Qed.

(** C1. At a store holding an expired message with an attachment on disk,
    one round of the expiration sweep deletes the message and leaves the
    attachment's file in the upload directory: no file is unlinked. *)
Theorem sweep_leaves_attachment_on_disk :
  let env := Sample.env_at (Sample.T0 + Sample.seconds 61) in
  let w' := snd (cleanup_expired_messages env Sample.stale_world) in
  db_messages w' = [Sample.long_lived] /\
  uploads w' !! "uploads/a1.txt" = Some Sample.hello /\
  events_since Sample.stale_world w' = [EvDeleteMany 1; EvBroadcast (Cleanup 1)].
Proof. vm_compute. auto. Qed.

(** C4. When every message that the second sweep's query matches (its
    stored [expires_at] before the sweep's clock reading, both as BSON dates
    in whole milliseconds) was already matched by the first sweep's query,
    the second of two successive sweeps deletes nothing and broadcasts
    nothing; and any sweep broadcasts a cleanup event, once and with the
    count, exactly when it deleted at least one message. *)
Theorem sweep_twice_deletes_once (env1 env2 : Env) (w : World) :
  (forall m, In m (db_messages w) ->
             Mongo.expires_lt (now env2) m = true ->
             Mongo.expires_lt (now env1) m = true) ->
  let w1 := snd (cleanup_expired_messages env1 w) in
  let w2 := snd (cleanup_expired_messages env2 w1) in
  (db_messages w2 = db_messages w1 /\
   events_since w1 w2 = [EvDeleteMany 0] /\
   cleanup_broadcasts (events_since w1 w2) = []) /\
  (forall (env : Env) (w0 : World),
     let w0' := snd (cleanup_expired_messages env w0) in
     let deleted := (List.length (db_messages w0) - List.length (db_messages w0'))%nat in
     exists rest,
       events_since w0 w0' = EvDeleteMany deleted :: rest /\
       cleanup_broadcasts rest = if Nat.ltb 0 deleted then [deleted] else []).
Proof.
  intros Hno w1 w2. split.
  - assert (Hnil : List.filter (Mongo.expires_lt (now env2)) (db_messages w1) = []).
    { subst w1. rewrite cleanup_messages.
      induction (db_messages w) as [|m l IH]; simpl; [reflexivity|].
      destruct (Mongo.expires_lt (now env1) m) eqn:E1; simpl.
      - apply IH. intros; apply Hno; simpl; auto.
      - destruct (Mongo.expires_lt (now env2) m) eqn:E2.
        + rewrite (Hno m) in E1; simpl; auto. discriminate.
        + apply IH. intros; apply Hno; simpl; auto. }
    assert (Hsame : List.filter (fun m => negb (Mongo.expires_lt (now env2) m))
                      (db_messages w1) = db_messages w1).
    { clear w2. induction (db_messages w1) as [|m l IH]; simpl in *; [reflexivity|].
      destruct (Mongo.expires_lt (now env2) m); [discriminate|].
      simpl. f_equal. auto. }
    subst w2. destruct (cleanup_round env2 w1) as (cs & sends & Heq & _).
    rewrite Hnil in Heq. simpl in Heq. rewrite Heq. cbn [snd].
    split; [rewrite db_messages_kept; exact Hsame|].
    rewrite (events_since_app w1 _ [EvDeleteMany 0]) by reflexivity.
    split; reflexivity.
  - intros env w0 w0' deleted.
    destruct (cleanup_round env w0) as (cs & sends & Heq & Hs).
    set (q := Mongo.expires_lt (now env)) in *.
    assert (Hd : deleted = List.length (List.filter q (db_messages w0))).
    { subst deleted w0'. rewrite Heq. cbn [snd]. rewrite db_messages_kept.
      pose proof (List.filter_length q (db_messages w0)). lia. }
    subst w0'. rewrite Heq. rewrite <- Hd.
    eexists. split; [apply events_since_app; reflexivity|].
    destruct (Nat.ltb 0 deleted); simpl; [|reflexivity].
    now rewrite cleanup_broadcasts_sends.
Qed.

Lemma sweep_twice_deletes_once_witness :
  let env1 := Sample.env_at (Sample.T0 + Sample.seconds 61) in
  let env2 := Sample.env_at (Sample.T0 + Sample.seconds 71) in
  (forall m, In m (db_messages Sample.stale_world) ->
             Mongo.expires_lt (now env2) m = true ->
             Mongo.expires_lt (now env1) m = true) /\
  let w1 := snd (cleanup_expired_messages env1 Sample.stale_world) in
  let w2 := snd (cleanup_expired_messages env2 w1) in
  db_messages w2 = db_messages w1 /\
  events_since w1 w2 = [EvDeleteMany 0] /\
  cleanup_broadcasts (events_since w1 w2) = [].
Proof.
  intros env1 env2.
  assert (H : forall m, In m (db_messages Sample.stale_world) ->
             Mongo.expires_lt (now env2) m = true ->
             Mongo.expires_lt (now env1) m = true).
  { intros m [<-|[<-|[]]]; vm_compute; auto. }
  split; [exact H|].
  exact (proj1 (sweep_twice_deletes_once env1 env2 Sample.stale_world H)).
Defined.

(** The query works in whole milliseconds: a sweep half a millisecond past
    a stored [expires_at] deletes nothing, and the sweep that runs once the
    millisecond is over deletes the message and broadcasts the count. *)
Example sweep_waits_for_the_millisecond :
  let env1 := Sample.env_at (Sample.T0 + Sample.seconds 60 + 500) in
  let env2 := Sample.env_at (Sample.T0 + Sample.seconds 60 + 1000) in
  let w1 := snd (cleanup_expired_messages env1 Sample.stale_world) in
  let w2 := snd (cleanup_expired_messages env2 w1) in
  events_since Sample.stale_world w1 = [EvDeleteMany 0] /\
  events_since w1 w2 = [EvDeleteMany 1; EvBroadcast (Cleanup 1)] /\
  db_messages w2 = [Sample.long_lived].
Proof. vm_compute. auto. Qed.

(** ** Retrieval *)

Section Retrieval.

#[local] Instance timestamp_le_trans : Transitive Mongo.timestamp_le.
Proof. intros a b c; unfold Mongo.timestamp_le; lia. Qed.

#[local] Instance timestamp_le_total : Total Mongo.timestamp_le.
Proof. intros a b; unfold Mongo.timestamp_le; lia. Qed.

(** On a stored message the query and liveness agree: its [expires_at] is a
    whole millisecond, so cutting the clock reading does not change the
    comparison. *)
Lemma live_query_spec (t : datetime) (w : World) (m : Message) :
  In m (db_messages w) ->
  (Mongo.live_query t m = true <-> live t m).
Proof.
  intros Hin. pose proof (stored_expiry_whole w m) as Hwhole.
  unfold Mongo.live_query, live, Mongo.expires_gt, Mongo.expires_null.
  destruct (expires_at m) as [e|]; simpl.
  - rewrite orb_false_r, Z.ltb_lt. apply date_lt_whole. now apply Hwhole.
  - tauto.
Qed.

Lemma sorted_live_strongly (t : datetime) (docs : list Message) :
  StronglySorted Mongo.timestamp_le
    (Mongo.sort_by_timestamp (Mongo.find (Mongo.live_query t) docs)).
Proof. apply StronglySorted_merge_sort; apply _. Qed.

Lemma sorted_live_members (t : datetime) (w : World) (m : Message) :
  In m (Mongo.sort_by_timestamp (Mongo.find (Mongo.live_query t) (db_messages w))) <->
  In m (db_messages w) /\ live t m.
Proof.
  unfold Mongo.sort_by_timestamp, Mongo.find.
  transitivity (In m (List.filter (Mongo.live_query t) (db_messages w))).
  - split; apply Permutation_in;
      [|symmetry]; apply merge_sort_Permutation.
  - rewrite List.filter_In. split; intros [Hin H]; (split; [exact Hin|]);
      now apply (live_query_spec t w m Hin).
Qed.


(** C5 (as amended). [get_messages] returns, without changing the world,
    at most 1000 messages in ascending order of creation timestamp; each
    is a stored message that is live at the clock reading; and a live
    stored message is left out only when 1000 were returned, none of them
    created after it. *)
Theorem get_messages_oldest_thousand_live (env : Env) (w : World) :
  exists ms,
    get_messages env w = (Ret ms, w) /\
    Sorted Mongo.timestamp_le ms /\
    (List.length ms <= 1000)%nat /\
    (forall m, In m ms -> In m (db_messages w) /\ live (now env) m) /\
    (forall m, In m (db_messages w) -> live (now env) m ->
               In m ms \/
               (List.length ms = 1000%nat /\
                forall m', In m' ms -> timestamp m' <= timestamp m)).
Proof.
  set (sorted := Mongo.sort_by_timestamp
                   (Mongo.find (Mongo.live_query (now env)) (db_messages w))).
  exists (List.firstn 1000 sorted).
  pose proof (sorted_live_strongly (now env) (db_messages w)) as Hss.
  fold sorted in Hss.
  rewrite <- (List.firstn_skipn 1000 sorted) in Hss.
  split; [reflexivity|].
  split; [apply StronglySorted_Sorted; eapply StronglySorted_app_1_l; exact Hss|].
  split; [apply List.firstn_le_length|].
  split.
  - intros m Hm. apply (sorted_live_members (now env)). fold sorted.
    rewrite <- (List.firstn_skipn 1000 sorted). apply in_or_app. auto.
  - intros m Hdb Hlive.
    assert (Hin : In m sorted) by (apply sorted_live_members; auto).
    rewrite <- (List.firstn_skipn 1000 sorted) in Hin.
    apply in_app_or in Hin. destruct Hin as [Hin|Hin]; [left; exact Hin|].
    right. split.
    + destruct (Nat.le_gt_cases (List.length sorted) 1000) as [Hle|Hgt].
      * rewrite List.skipn_all2 in Hin by exact Hle. destruct Hin.
      * rewrite List.firstn_length_le; [reflexivity | lia].
    + intros m' Hm'.
      eapply (StronglySorted_app_1_elem_of _ _ _ _ _ Hss);
        apply list_elem_of_In; eassumption.
Qed.

Lemma get_messages_oldest_thousand_live_witness :
  let env := Sample.env_at (Sample.T0 + Sample.seconds 10) in
  exists ms,
    get_messages env Sample.stale_world = (Ret ms, Sample.stale_world) /\
    (In Sample.long_lived (db_messages Sample.stale_world) /\
     live (now env) Sample.long_lived) /\
    In Sample.long_lived ms.
Proof.
  intros env.
  destruct (get_messages_oldest_thousand_live env Sample.stale_world)
    as (ms & Hrun & _ & _ & _ & Hall).
  exists ms. split; [exact Hrun|].
  assert (Hdb : In Sample.long_lived (db_messages Sample.stale_world))
    by (simpl; auto).
  assert (Hlive : live (now env) Sample.long_lived)
    by (vm_compute; reflexivity).
  split; [split; assumption|].
  destruct (Hall Sample.long_lived Hdb Hlive) as [Hin|[Hlen _]]; [exact Hin|].
  exfalso. revert Hrun Hlen. vm_compute. intros [= <-]. discriminate.
Defined.

End Retrieval.

(** C5 (as stated): with 1001 live messages stored, the last of them is
    live and stored, and is not in the list [get_messages] returns. *)
Lemma get_messages_omits_a_live_message :
  let env := Sample.env_at Sample.T0 in
  let m := Sample.crowd_member 1000 in
  In m (db_messages Sample.crowd) /\
  live (now env) m /\
  ~ In m (Sample.returned (get_messages env Sample.crowd)).
Proof.
  intros env m. split; [|split].
  - assert (Hdb : db_messages Sample.crowd =
                  List.map Sample.crowd_member (List.seq 0 1001))
      by (vm_compute; reflexivity).
    rewrite Hdb. apply List.in_map. apply List.in_seq. lia.
  - vm_compute. reflexivity.
  - intros Hin.
    assert (Hall : forallb (fun x => negb (timestamp x =? timestamp m))
                     (Sample.returned (get_messages env Sample.crowd)) = true)
      by (vm_compute; reflexivity).
    rewrite forallb_forall in Hall. specialize (Hall m Hin).
    rewrite Z.eqb_refl in Hall. discriminate.
Qed.

(** ** Ingestion: the deny-list gate *)

Lemma suffix_blocked_named (f : UploadFile) (fname : string) :
  filename f = Some fname ->
  PyStr.lower (PyPath.suffix fname) ∈ BLOCKED_EXTENSIONS ->
  named_upload (Some f) = Some (f, fname).
Proof.
  intros Hf Hb. unfold named_upload. rewrite Hf. simpl.
  destruct fname; [|reflexivity].
  exfalso. revert Hb. vm_compute. discriminate.
Qed.

(** C3. A create request whose attachment's file name has a deny-listed
    extension (its [Path(name).suffix], lower-cased, is on the deny-list;
    by [named_blocked_extension_refused] that is any non-empty name followed
    by such an extension) raises the 400 error and leaves the message store,
    the upload directory, the registry and the trace as they were; a form
    that carries it is refused with that error, or for a missing required
    field, and the world is unchanged too. *)
Theorem blocked_upload_rejected_before_any_write
    (env : Env) (content username : string) (ttl_seconds : Z)
    (send_to_discord : bool) (f : UploadFile) (fname : string) (w : World) :
  filename f = Some fname ->
  PyStr.lower (PyPath.suffix fname) ∈ BLOCKED_EXTENSIONS ->
  create_message env content username ttl_seconds send_to_discord (Some f) w =
    (Raise (HTTPException 400 "File type not allowed"), w) /\
  (forall form : Form,
      form_file form = Some f ->
      post_messages env form w =
        (Raise (HTTPException 400 "File type not allowed"), w) \/
      post_messages env form w =
        (Raise (RequestValidationError (missing_fields form)), w)).
Proof.
  intros Hf Hb.
  assert (Hcreate : forall c u t s,
             create_message env c u t s (Some f) w =
             (Raise (HTTPException 400 "File type not allowed"), w)).
  { intros c u t s. unfold create_message.
    rewrite (suffix_blocked_named f fname Hf Hb).
    apply is_file_allowed_false in Hb. rewrite Hb. reflexivity. }
  split; [apply Hcreate|].
  intros form Hfile. unfold post_messages.
  destruct (form_value (form_content form)); [|right; reflexivity].
  destruct (form_value (form_username form)); [|right; reflexivity].
  rewrite Hfile. left. apply Hcreate.
Qed.

Lemma blocked_upload_rejected_witness :
  let f := mkUpload (Some "x.php") Sample.hello in
  let env := Sample.env_at Sample.T0 in
  filename f = Some "x.php" /\
  PyStr.lower (PyPath.suffix "x.php") ∈ BLOCKED_EXTENSIONS /\
  create_message env "look" "mallory" 3600 false (Some f) Sample.stale_world =
    (Raise (HTTPException 400 "File type not allowed"), Sample.stale_world).
Proof.
  intros f env.
  assert (H1 : filename f = Some "x.php") by reflexivity.
  assert (H2 : PyStr.lower (PyPath.suffix "x.php") ∈ BLOCKED_EXTENSIONS)
    by (vm_compute; reflexivity).
  split; [exact H1|]. split; [exact H2|].
  exact (proj1 (blocked_upload_rejected_before_any_write
                  env "look" "mallory" 3600 false f "x.php"
                  Sample.stale_world H1 H2)).
Defined.

(** ** Ingestion: the accepted path *)

Section Ingestion.

Lemma with_relay_same (env : Env) : with_relay (relay env) env = env.
Proof. destruct env; reflexivity. Qed.

Lemma create_message_denied (env : Env) (content username : string)
    (ttl : Z) (std : bool) (file : option UploadFile) (w : World) :
  upload_allowed file = false ->
  create_message env content username ttl std file w =
    (Raise (HTTPException 400 "File type not allowed"), w).
Proof.
  unfold upload_allowed, create_message.
  destruct (named_upload file) as [[f fname]|]; [|discriminate].
  intros ->. reflexivity.
Qed.

Lemma create_message_overflow (env : Env) (content username : string)
    (ttl : Z) (std : bool) (file : option UploadFile) (w : World) :
  upload_allowed file = true ->
  PyTime.after_seconds (now env) ttl = None ->
  create_message env content username ttl std file w = (Raise OverflowError, w).
Proof.
  unfold upload_allowed, create_message, expiry_of.
  intros Hal Hov.
  destruct (named_upload file) as [[f fname]|];
    [rewrite Hal|]; run_monad; rewrite Hov; reflexivity.
Qed.

(** An accepted request, in closed form: the record, the files and the
    sends are fixed before the webhook's outcome is known. *)
Lemma create_message_accepted (env : Env) (text author : string)
    (ttl : Z) (std : bool) (file : option UploadFile) (w : World)
    (e : datetime) :
  upload_allowed file = true ->
  PyTime.after_seconds (now env) ttl = Some e ->
  upload_fits env file = true ->
  exists m fs pre with_file cs sends,
    (id m = uuid_msg env /\ content m = text /\ username m = author /\
     timestamp m = now_created env /\
     ttl_seconds m = Some ttl /\ expires_at m = Some e) /\
    forallb is_file_write pre = true /\
    forallb is_send sends = true /\
    forall r : RelayOutcome,
      create_message (with_relay r env) text author ttl std file w =
        (Ret m,
         Build_World (db_docs w ++ [Bson.encode m]) fs cs
           (trace w ++ pre ++
              EvInsert m ::
              (if std
               then [EvRelay ("**" ++ author ++ "**: " ++ text)
                             with_file (relay_ok r)]
               else []) ++
              EvBroadcast (NewMessage m) :: sends)).
Proof.
  unfold upload_allowed, upload_fits, stored_path. intros Hal Hexp Hfit.
  destruct (broadcast_frame (send_fails env)
              (NewMessage
                 (match named_upload file with
                  | Some (f, fname) =>
                      mkMessage (uuid_msg env) text author (now_created env)
                        (Some ttl) (Some e)
                        (Some (UPLOAD_DIR ++ "/" ++ uuid_file env ++ PyPath.suffix fname))
                        (Some fname)
                        (Some (Z.of_nat (List.length (payload f))))
                  | None =>
                      mkMessage (uuid_msg env) text author (now_created env)
                        (Some ttl) (Some e) None None None
                  end))
              (active_connections w)) as (cs & sends & Hs & Hrun).
  destruct (named_upload file) as [[f fname]|] eqn:Hnu.
  - exists (mkMessage (uuid_msg env) text author (now_created env)
              (Some ttl) (Some e)
              (Some (UPLOAD_DIR ++ "/" ++ uuid_file env ++ PyPath.suffix fname))
              (Some fname) (Some (Z.of_nat (List.length (payload f))))).
    destruct std;
      [eexists _, [EvFileWrite _ _], _, cs, sends
      |eexists _, [EvFileWrite _ _], false, cs, sends];
      (split; [repeat split|]); (split; [reflexivity|]); (split; [exact Hs|]);
      intros r; unfold create_message, expiry_of;
      rewrite Hnu, Hal; simpl; rewrite Hexp;
      unfold Fs.write; rewrite Hfit;
      unfold send_to_discord_webhook; run_monad;
      [destruct r; simpl|];
      rewrite Hrun by reflexivity; simpl;
      rewrite <- !app_assoc; reflexivity.
  - exists (mkMessage (uuid_msg env) text author (now_created env)
              (Some ttl) (Some e) None None None).
    destruct std;
      [eexists _, [], _, cs, sends | eexists _, [], false, cs, sends];
      (split; [repeat split|]); (split; [reflexivity|]); (split; [exact Hs|]);
      intros r; unfold create_message, expiry_of;
      rewrite Hnu; simpl; rewrite Hexp;
      unfold send_to_discord_webhook; run_monad;
      [destruct r; simpl|];
      rewrite Hrun by reflexivity; simpl;
      rewrite <- !app_assoc; reflexivity.
Qed.


Lemma after_seconds_value (d : datetime) (s : Z) (e : datetime) :
  PyTime.after_seconds d s = Some e -> e = d + s * 1000000.
Proof.
  unfold PyTime.after_seconds, PyTime.timedelta_seconds, PyTime.add.
  destruct (_ && _); [|discriminate].
  destruct (PyTime.in_range _); [|discriminate].
  intros [= <-]. reflexivity.
Qed.

(** An upload whose stored name is longer than a directory entry may be:
    [open] raises, after the checks and before anything is written. *)
Lemma create_message_too_long (env : Env) (content username : string)
    (ttl : Z) (std : bool) (file : option UploadFile) (w : World)
    (e : datetime) :
  upload_allowed file = true ->
  PyTime.after_seconds (now env) ttl = Some e ->
  upload_fits env file = false ->
  create_message env content username ttl std file w =
    (Raise (OSError Fs.ENAMETOOLONG), w).
Proof.
  unfold upload_allowed, upload_fits, stored_path, create_message, expiry_of.
  intros Hal Hexp Hfit.
  destruct (named_upload file) as [[f fname]|]; [|discriminate].
  rewrite Hal. simpl. rewrite Hexp. unfold Fs.write. rewrite Hfit.
  reflexivity.
Qed.

(** The collection after [insert_one]: the new document reads back with its
    dates in whole milliseconds. *)
Lemma db_messages_insert (w : World) (m : Message) fs cs tr :
  db_messages (Build_World (db_docs w ++ [Bson.encode m]) fs cs tr) =
  (db_messages w ++ [Bson.through m])%list.
Proof. unfold db_messages. simpl. now rewrite List.map_app. Qed.

(** Whatever [create_message] returns, it has stored, dates cut to the
    millisecond. *)
Lemma create_message_ret (env : Env) (text author : string) (ttl : Z)
    (std : bool) (file : option UploadFile) (w w' : World) (m : Message) :
  create_message env text author ttl std file w = (Ret m, w') ->
  upload_allowed file = true /\
  upload_fits env file = true /\
  PyTime.after_seconds (now env) ttl = Some (now env + ttl * 1000000) /\
  db_messages w' = (db_messages w ++ [Bson.through m])%list /\
  content m = text /\ username m = author /\
  ttl_seconds m = Some ttl /\
  expires_at m = Some (now env + ttl * 1000000).
Proof.
  intros Hrun.
  destruct (upload_allowed file) eqn:Hal.
  2:{ rewrite create_message_denied in Hrun by exact Hal. discriminate. }
  destruct (PyTime.after_seconds (now env) ttl) as [e|] eqn:Hexp.
  2:{ rewrite create_message_overflow in Hrun by assumption. discriminate. }
  destruct (upload_fits env file) eqn:Hfit.
  2:{ rewrite (create_message_too_long _ _ _ _ _ _ _ e) in Hrun by assumption.
      discriminate. }
  pose proof (after_seconds_value _ _ _ Hexp) as ->.
  destruct (create_message_accepted env text author ttl std file w _ Hal Hexp Hfit)
    as (m0 & fs & pre & wf & cs & sends & Hm & _ & _ & Hall).
  specialize (Hall (relay env)). rewrite with_relay_same, Hrun in Hall.
  injection Hall as -> ->. rewrite db_messages_insert. tauto.
Qed.

End Ingestion.

(** ** Ingestion: the webhook *)

(** C7 (as stated): in the trace of a create request that asks for the
    relay, posted while one viewer is connected, the webhook call comes
    right after the insertion and before the broadcast of the new
    message. *)
Lemma relay_precedes_broadcast :
  let r := create_message (Sample.env_at Sample.T0) "hello" "erin" 60 true None
                          Sample.one_viewer in
  let tr := trace (snd r) in
  first_index is_insert tr = Some 0%nat /\
  first_index is_relay tr = Some 1%nat /\
  first_index is_new_message_broadcast tr = Some 2%nat /\
  receivers tr = [7%nat].
Proof. vm_compute. auto. Qed.

(** C7 (as amended). When a create request that asks for the relay is
    accepted, the handler writes the attachment if there is one, inserts
    the message, calls the webhook once, and only then broadcasts the new
    message; and with any other outcome of the webhook call it returns the
    same message and leaves the same store, upload directory and
    registry. *)
Theorem relay_follows_insert_and_is_swallowed
    (env : Env) (text author : string) (ttl : Z) (file : option UploadFile)
    (w w' : World) (m : Message) :
  create_message env text author ttl true file w = (Ret m, w') ->
  (exists pre with_file delivered sends,
      events_since w w' =
        (pre ++ [EvInsert m;
                 EvRelay ("**" ++ author ++ "**: " ++ text) with_file delivered;
                 EvBroadcast (NewMessage m)] ++ sends)%list /\
      forallb is_file_write pre = true /\
      forallb is_send sends = true) /\
  (forall r : RelayOutcome,
      exists w'',
        create_message (with_relay r env) text author ttl true file w = (Ret m, w'') /\
        db_messages w'' = db_messages w' /\
        uploads w'' = uploads w' /\
        active_connections w'' = active_connections w').
Proof.
  intros Hrun.
  destruct (create_message_ret _ _ _ _ _ _ _ _ _ Hrun) as (Hal & Hfit & Hexp & _).
  destruct (create_message_accepted env text author ttl true file w _ Hal Hexp Hfit)
    as (m0 & fs & pre & wf & cs & sends & _ & Hpre & Hsends & Hall).
  pose proof (Hall (relay env)) as Hhere.
  rewrite with_relay_same, Hrun in Hhere. injection Hhere as -> ->.
  split.
  - exists pre, wf, (relay_ok (relay env)), sends.
    split; [|split; assumption].
    apply events_since_app. reflexivity.
  - intros r. eexists. split; [apply Hall|]. simpl. auto.
Qed.

Lemma relay_follows_insert_and_is_swallowed_witness :
  let env := Sample.env_at Sample.T0 in
  let r := create_message env "hello" "erin" 60 true None Sample.one_viewer in
  exists m w',
    r = (Ret m, w') /\
    exists w'',
      create_message (with_relay RelayRaises env) "hello" "erin" 60 true None
                     Sample.one_viewer = (Ret m, w'') /\
      db_messages w'' = db_messages w'.
Proof.
  intros env r.
  exists (mkMessage "9a1e" "hello" "erin" Sample.T0 (Some 60)
            (Some (Sample.T0 + Sample.seconds 60)) None None None).
  eexists.
  assert (Hrun : r = (Ret (mkMessage "9a1e" "hello" "erin" Sample.T0 (Some 60)
                             (Some (Sample.T0 + Sample.seconds 60)) None None None),
                      snd r))
    by (vm_compute; reflexivity).
  split; [exact Hrun|].
  destruct (proj2 (relay_follows_insert_and_is_swallowed
                     env "hello" "erin" 60 None Sample.one_viewer _ _ Hrun)
              RelayRaises) as (w'' & H1 & H2 & _).
  exists w''. split; assumption.
Defined.


(** ** Ingestion: what is checked and what is not *)

Lemma post_messages_present (env : Env) (form : Form) (text author : string) :
  form_value (form_content form) = Some text ->
  form_value (form_username form) = Some author ->
  post_messages env form =
  create_message env text author
    (default 3600 (form_ttl_seconds form))
    (default false (form_send_to_discord form))
    (form_file form).
Proof. unfold post_messages. intros -> ->. reflexivity. Qed.

Lemma form_value_absent (field : option string) :
  field = None \/ field = Some "" -> form_value field = None.
Proof. intros [->| ->]; reflexivity. Qed.

(** C8 (as stated): a text message from a named author posted with
    [ttl_seconds = 0], and one with [ttl_seconds = -5], are accepted and
    stored, already expired. *)
Lemma non_positive_ttl_is_stored :
  let env := Sample.env_at Sample.T0 in
  let post ttl :=
    post_messages env (mkForm (Some "hello") (Some "erin") (Some ttl) None None)
                  Sample.empty_world in
  (exists m, fst (post 0) = Ret m /\ db_messages (snd (post 0)) = [m] /\
             expires_at m = Some Sample.T0) /\
  (exists m, fst (post (-5)) = Ret m /\ db_messages (snd (post (-5))) = [m] /\
             expires_at m = Some (Sample.T0 - Sample.seconds 5)).
Proof. split; eexists; vm_compute; auto. Qed.

(** C8 (as amended). A request whose author is missing or empty is refused
    with a request validation error that names the field, and the world is
    unchanged. The sign of [ttl_seconds] is not checked: a request with
    content and author present and non-empty and a non-positive
    [ttl_seconds], whose upload (if any) the deny-list lets through and can
    be stored under its name, and whose expiry is a representable date, is
    accepted; the message is stored, its dates cut to the millisecond, and
    its [expires_at] is not after the clock reading. When the expiry is not
    a representable date the request fails with [OverflowError] and the
    world is unchanged. *)
Theorem author_required_ttl_sign_unchecked :
  (forall (env : Env) (form : Form) (w : World),
      form_username form = None \/ form_username form = Some "" ->
      In "username" (missing_fields form) /\
      post_messages env form w =
        (Raise (RequestValidationError (missing_fields form)), w)) /\
  (forall (env : Env) (form : Form) (text author : string) (ttl : Z)
          (w : World) (e : datetime),
      form_value (form_content form) = Some text ->
      form_value (form_username form) = Some author ->
      form_ttl_seconds form = Some ttl ->
      ttl <= 0 ->
      upload_allowed (form_file form) = true ->
      upload_fits env (form_file form) = true ->
      PyTime.after_seconds (now env) ttl = Some e ->
      exists m w',
        post_messages env form w = (Ret m, w') /\
        db_messages w' = (db_messages w ++ [Bson.through m])%list /\
        username m = author /\
        ttl_seconds m = Some ttl /\
        expires_at m = Some e /\
        e <= now env) /\
  (forall (env : Env) (form : Form) (text author : string) (ttl : Z)
          (w : World),
      form_value (form_content form) = Some text ->
      form_value (form_username form) = Some author ->
      form_ttl_seconds form = Some ttl ->
      upload_allowed (form_file form) = true ->
      PyTime.after_seconds (now env) ttl = None ->
      post_messages env form w = (Raise OverflowError, w)).
Proof.
  split; [|split].
  - intros env form w Hnone. apply form_value_absent in Hnone.
    unfold post_messages, missing_fields.
    rewrite Hnone. destruct (form_value (form_content form)); simpl; auto.
  - intros env form text author ttl w e Hc Hu Httl Hneg Hal Hfit Hexp.
    rewrite (post_messages_present env form text author Hc Hu), Httl. simpl.
    destruct (create_message_accepted env text author ttl
                (default false (form_send_to_discord form)) (form_file form)
                w e Hal Hexp Hfit)
      as (m & fs & pre & wf & cs & sends & Hm & _ & _ & Hall).
    specialize (Hall (relay env)). rewrite with_relay_same in Hall.
    exists m. eexists. split; [exact Hall|].
    rewrite db_messages_insert.
    pose proof (after_seconds_value _ _ _ Hexp).
    repeat split; try tauto. lia.
  - intros env form text author ttl w Hc Hu Httl Hal Hexp.
    rewrite (post_messages_present env form text author Hc Hu), Httl. simpl.
    now apply create_message_overflow.
Qed.

Lemma author_required_ttl_sign_unchecked_witness :
  let env := Sample.env_at Sample.T0 in
  let unsigned := mkForm (Some "hello") (Some "") (Some 60) None None in
  let late := mkForm (Some "hello") (Some "erin") (Some (-5)) None None in
  let far := mkForm (Some "hello") (Some "erin") (Some (- 10 ^ 15)) None None in
  ((form_username unsigned = None \/ form_username unsigned = Some "") /\
   post_messages env unsigned Sample.stale_world =
     (Raise (RequestValidationError ["username"]), Sample.stale_world)) /\
  ((form_value (form_content late) = Some "hello" /\
    form_value (form_username late) = Some "erin" /\
    form_ttl_seconds late = Some (-5) /\
    -5 <= 0 /\
    upload_allowed (form_file late) = true /\
    upload_fits env (form_file late) = true /\
    PyTime.after_seconds (now env) (-5) = Some (Sample.T0 - Sample.seconds 5)) /\
   exists m w',
     post_messages env late Sample.stale_world = (Ret m, w') /\
     db_messages w' = (db_messages Sample.stale_world ++ [Bson.through m])%list /\
     username m = "erin") /\
  ((form_value (form_content far) = Some "hello" /\
    form_value (form_username far) = Some "erin" /\
    form_ttl_seconds far = Some (- 10 ^ 15) /\
    upload_allowed (form_file far) = true /\
    PyTime.after_seconds (now env) (- 10 ^ 15) = None) /\
   post_messages env far Sample.stale_world =
     (Raise OverflowError, Sample.stale_world)).
Proof.
  intros env unsigned late far.
  destruct author_required_ttl_sign_unchecked as (Hmissing & Hstored & Hover).
  split; [|split].
  - assert (H : form_username unsigned = None \/ form_username unsigned = Some "")
      by (right; reflexivity).
    split; [exact H|]. exact (proj2 (Hmissing env _ Sample.stale_world H)).
  - assert (Hc : form_value (form_content late) = Some "hello") by reflexivity.
    assert (Hu : form_value (form_username late) = Some "erin") by reflexivity.
    assert (Ht : form_ttl_seconds late = Some (-5)) by reflexivity.
    assert (H1 : -5 <= 0) by lia.
    assert (H2 : upload_allowed (form_file late) = true) by reflexivity.
    assert (H3 : upload_fits env (form_file late) = true) by reflexivity.
    assert (H4 : PyTime.after_seconds (now env) (-5) =
                 Some (Sample.T0 - Sample.seconds 5))
      by (vm_compute; reflexivity).
    split; [repeat split; assumption|].
    destruct (Hstored env late "hello" "erin" (-5) Sample.stale_world _
                Hc Hu Ht H1 H2 H3 H4)
      as (m & w' & Hrun & Hdb & Hname & _).
    exists m, w'. repeat split; assumption.
  - assert (Hc : form_value (form_content far) = Some "hello") by reflexivity.
    assert (Hu : form_value (form_username far) = Some "erin") by reflexivity.
    assert (Ht : form_ttl_seconds far = Some (- 10 ^ 15)) by reflexivity.
    assert (H2 : upload_allowed (form_file far) = true) by reflexivity.
    assert (H3 : PyTime.after_seconds (now env) (- 10 ^ 15) = None)
      by (vm_compute; reflexivity).
    split; [repeat split; assumption|].
    exact (Hover env far "hello" "erin" (- 10 ^ 15) Sample.stale_world
             Hc Hu Ht H2 H3).
Defined.
(** ** The full reset, and what becomes of a message without a lifetime *)

Lemma for_each_unlink_frame (files : list string) :
  forall w : World,
  exists fs evs,
    for_each files Fs.unlink w =
      (Ret tt, Build_World (db_docs w) fs (active_connections w) (trace w ++ evs)).
Proof.
  induction files as [|p rest IH]; intros w; simpl.
  - exists (uploads w), []. rewrite app_nil_r. destruct w; reflexivity.
  - unfold Fs.unlink. run_monad.
    edestruct IH as (fs & evs & ->). simpl.
    exists fs, (EvFileUnlink p :: evs). now rewrite <- app_assoc.
Qed.

Lemma auto_clear_messages (env : Env) (w : World) :
  db_messages (snd (auto_clear_all_messages env w)) = [].
Proof.
  unfold auto_clear_all_messages, Fs.glob_files. run_monad.
  edestruct for_each_unlink_frame as (fs & evs & ->). simpl.
  edestruct (broadcast_frame (send_fails env)) as (cs & sends & _ & Hrun).
  rewrite Hrun by reflexivity. simpl.
  induction (db_messages w); simpl; auto.
Qed.

(** C2 (as stated): a text message posted at [T0] without [ttl_seconds] is
    stored with the default lifetime of 3600 seconds and an [expires_at] an
    hour later, and the sweep that runs 3601 seconds after [T0] removes
    it. *)
Lemma message_without_ttl_expires :
  let r := post_messages (Sample.env_at Sample.T0) Sample.form_without_ttl
                         Sample.empty_world in
  exists m,
    fst r = Ret m /\
    db_messages (snd r) = [m] /\
    ttl_seconds m = Some 3600 /\
    expires_at m = Some (Sample.T0 + Sample.seconds 3600) /\
    expires_at m <> None /\
    db_messages
      (snd (cleanup_expired_messages
              (Sample.env_at (Sample.T0 + Sample.seconds 3601)) (snd r))) = [].
Proof.
  eexists. vm_compute. repeat split; try reflexivity. discriminate.
Qed.

Lemma through_expires_at (m : Message) :
  expires_at (Bson.through m) = option_map Bson.date (expires_at m).
Proof. destruct m as [? ? ? ? ? [e|] ? ? ?]; reflexivity. Qed.

(** What a sweep leaves: the stored messages its query does not match. *)
Lemma cleanup_member (env : Env) (w : World) (m : Message) :
  In m (db_messages (snd (cleanup_expired_messages env w))) <->
  In m (db_messages w) /\ Mongo.expires_lt (now env) m = false.
Proof.
  rewrite cleanup_messages, List.filter_In.
  destruct (Mongo.expires_lt (now env) m); simpl; intuition congruence.
Qed.

(** Whatever [POST /messages] returns, it has stored. *)
Lemma post_messages_ret (env : Env) (form : Form) (w w' : World) (m : Message) :
  post_messages env form w = (Ret m, w') ->
  let ttl := default 3600 (form_ttl_seconds form) in
  db_messages w' = (db_messages w ++ [Bson.through m])%list /\
  ttl_seconds m = Some ttl /\
  expires_at m = Some (now env + ttl * 1000000).
Proof.
  intros Hrun ttl. unfold post_messages in Hrun.
  destruct (form_value (form_content form)); [|discriminate].
  destruct (form_value (form_username form)); [|discriminate].
  apply create_message_ret in Hrun.
  destruct Hrun as (_ & _ & _ & Hdb & _ & _ & Httl & Hexp). auto.
Qed.

(** C2 (as amended). Every message [POST /messages] accepts has a lifetime,
    the one sent or the default 3600 seconds, and an [expires_at] that many
    seconds after the handler's clock reading; it is stored with that
    [expires_at] cut to the millisecond, so neither field of the stored
    message is [None]. An expiration sweep that runs next removes the stored
    message exactly when its clock reading, cut to the millisecond, is after
    the stored [expires_at], which is the case once the clock is a
    millisecond or more past it. The expiration sweep keeps every stored
    message whose [expires_at] is [None]; the full reset leaves the message
    store empty. *)
Theorem stored_expiry_and_sweeps :
  (forall (env : Env) (form : Form) (w w' : World) (m : Message),
      post_messages env form w = (Ret m, w') ->
      let ttl := default 3600 (form_ttl_seconds form) in
      let stored := Bson.through m in
      let expiry := Bson.date (now env + ttl * 1000000) in
      expires_at m = Some (now env + ttl * 1000000) /\
      db_messages w' = (db_messages w ++ [stored])%list /\
      ttl_seconds stored = Some ttl /\
      expires_at stored = Some expiry /\
      (expires_at stored = None <-> ttl_seconds stored = None) /\
      (forall env2 : Env,
          let swept := db_messages (snd (cleanup_expired_messages env2 w')) in
          (In stored swept <-> Bson.date (now env2) <= expiry) /\
          (expiry + 1000 <= now env2 -> ~ In stored swept))) /\
  (forall (env : Env) (w : World) (m : Message),
      In m (db_messages w) -> expires_at m = None ->
      In m (db_messages (snd (cleanup_expired_messages env w)))) /\
  (forall (env : Env) (w : World),
      db_messages (snd (auto_clear_all_messages env w)) = []).
Proof.
  split; [|split].
  - intros env form w w' m Hrun ttl stored expiry.
    destruct (post_messages_ret env form w w' m Hrun) as (Hdb & Httl & Hexp).
    fold ttl in Httl, Hexp.
    assert (Hst : expires_at stored = Some expiry)
      by (subst stored; rewrite through_expires_at, Hexp; reflexivity).
    assert (Hin : In stored (db_messages w'))
      by (rewrite Hdb; apply in_or_app; right; left; reflexivity).
    assert (Hlt : forall env2, Mongo.expires_lt (now env2) stored = false <->
                               Bson.date (now env2) <= expiry).
    { intros env2. unfold Mongo.expires_lt. rewrite Hst.
      rewrite Z.ltb_ge. reflexivity. }
    split; [exact Hexp|]. split; [exact Hdb|]. split; [exact Httl|].
    split; [exact Hst|].
    split; [split; intros Hnone; [rewrite Hst in Hnone | change (ttl_seconds m = None) in Hnone; rewrite Httl in Hnone]; discriminate|].
    intros env2 swept.
    assert (Hiff : In stored swept <-> Bson.date (now env2) <= expiry).
    { subst swept. rewrite cleanup_member, Hlt. tauto. }
    split; [exact Hiff|].
    intros Hpast Hswept. apply Hiff in Hswept.
    pose proof (proj2 (whole_lt_date expiry (now env2) (date_idem _)) Hpast).
    lia.
  - apply cleanup_spares_unexpiring.
  - apply auto_clear_messages.
Qed.

Lemma stored_expiry_and_sweeps_witness :
  let env := Sample.env_at Sample.T0 in
  let later := Sample.env_at (Sample.T0 + Sample.seconds 3601) in
  (exists w',
     post_messages env Sample.form_without_ttl Sample.empty_world =
       (Ret Sample.stored_without_ttl, w') /\
     expires_at (Bson.through Sample.stored_without_ttl) =
       Some (Bson.date (Sample.T0 + 3600 * 1000000)) /\
     (Bson.date (Sample.T0 + 3600 * 1000000) + 1000 <= now later /\
      ~ In (Bson.through Sample.stored_without_ttl)
           (db_messages (snd (cleanup_expired_messages later w'))))) /\
  (In Sample.unexpiring (db_messages Sample.pinned_world) /\
   expires_at Sample.unexpiring = None /\
   In Sample.unexpiring
      (db_messages
         (snd (cleanup_expired_messages
                 (Sample.env_at (Sample.T0 + Sample.seconds 7200))
                 Sample.pinned_world)))).
Proof.
  intros env later.
  destruct stored_expiry_and_sweeps as (Hpost & Hkeep & _).
  assert (Hrun : post_messages env Sample.form_without_ttl Sample.empty_world =
                 (Ret Sample.stored_without_ttl,
                  snd (post_messages env Sample.form_without_ttl
                         Sample.empty_world)))
    by (vm_compute; reflexivity).
  assert (Hpast : Bson.date (Sample.T0 + 3600 * 1000000) + 1000 <= now later)
    by (vm_compute; discriminate).
  assert (Hin : In Sample.unexpiring (db_messages Sample.pinned_world))
    by (vm_compute; auto).
  assert (Hnone : expires_at Sample.unexpiring = None) by reflexivity.
  split.
  - eexists. split; [exact Hrun|].
    destruct (Hpost _ _ _ _ _ Hrun) as (_ & _ & _ & Hst & _ & Hsweep).
    split; [exact Hst|]. split; [exact Hpast|].
    exact (proj2 (Hsweep later) Hpast).
  - split; [exact Hin|]. split; [exact Hnone|].
    exact (Hkeep (Sample.env_at (Sample.T0 + Sample.seconds 7200))
                 Sample.pinned_world Sample.unexpiring Hin Hnone).
Defined.
(** * Further properties of the handlers *)

(** ** The registry *)

Section RegistryMore.
Import ConnectionManager.

Lemma list_remove_split (c : WebSocket) (cs cs' : list WebSocket) :
  list_remove c cs = Some cs' ->
  exists l1 l2, cs = (l1 ++ c :: l2)%list /\ cs' = (l1 ++ l2)%list /\ ~ In c l1.
Proof.
  revert cs'; induction cs as [|y t IH]; intros cs' H; simpl in H; [discriminate|].
  destruct (Nat.eqb c y) eqn:E.
  - apply Nat.eqb_eq in E. subst y. injection H as <-.
    exists [], t. simpl. auto.
  - destruct (list_remove c t) as [t'|] eqn:Ht; [|discriminate].
    injection H as <-.
    destruct (IH t' eq_refl) as (l1 & l2 & -> & -> & Hn).
    exists (y :: l1), l2. simpl. repeat split; auto.
    intros [->|Hin]; [|tauto]. rewrite Nat.eqb_refl in E. discriminate.
Qed.

Lemma list_remove_present (c : WebSocket) (cs : list WebSocket) :
  In c cs -> exists cs', list_remove c cs = Some cs'.
Proof.
  induction cs as [|y t IH]; simpl; [tauto|]. intros Hin.
  destruct (Nat.eqb c y) eqn:E; [eauto|].
  destruct Hin as [->|Hin]; [rewrite Nat.eqb_refl in E; discriminate|].
  destruct (IH Hin) as (t' & ->). eauto.
Qed.

Lemma list_remove_appended (c : WebSocket) (cs : list WebSocket) :
  ~ In c cs -> list_remove c (cs ++ [c]) = Some cs.
Proof.
  induction cs as [|y t IH]; simpl; intros Hn.
  - now rewrite Nat.eqb_refl.
  - destruct (Nat.eqb c y) eqn:E.
    + apply Nat.eqb_eq in E. subst. tauto.
    + rewrite IH by tauto. reflexivity.
Qed.

Lemma for_each_skip {A} (xs : list A) (w : World) :
  for_each xs (fun _ => ret tt) w = (Ret tt, w).
Proof. induction xs as [|x l IH]; simpl; [reflexivity|]. run_monad. exact IH. Qed.

End RegistryMore.

(** X1. A socket that was not registered, connects, sends any texts and
    leaves: the session ends without an exception and the world is exactly
    what it was. *)
Theorem websocket_session_round_trip
    (websocket : WebSocket) (received : list string) (w : World) :
  ~ In websocket (active_connections w) ->
  websocket_endpoint websocket received w = (Ret tt, w).
Proof.
  intros Hfresh. unfold websocket_endpoint, ConnectionManager.connect,
    ConnectionManager.disconnect, ConnectionManager.remove.
  run_monad. rewrite for_each_skip. simpl.
  rewrite (list_remove_appended _ _ Hfresh). simpl.
  destruct w; reflexivity.
Qed.

Lemma websocket_session_round_trip_witness :
  ~ In 9%nat (active_connections Sample.one_viewer) /\
  websocket_endpoint 9%nat ["ping"; "pong"] Sample.one_viewer =
    (Ret tt, Sample.one_viewer).
Proof.
  assert (H : ~ In 9%nat (active_connections Sample.one_viewer))
    by (simpl; lia).
  split; [exact H|].
  exact (websocket_session_round_trip 9%nat ["ping"; "pong"] Sample.one_viewer H).
Defined.

(** X2. [disconnect] of a registered socket does not raise and takes out
    its first occurrence only: the sockets before and after it keep their
    places, and nothing else in the world changes. *)
Theorem disconnect_removes_first_occurrence (c : WebSocket) (w : World) :
  In c (active_connections w) ->
  exists l1 l2,
    active_connections w = (l1 ++ c :: l2)%list /\
    ~ In c l1 /\
    ConnectionManager.disconnect c w =
      (Ret tt, mkWorld (db_messages w) (uploads w) (l1 ++ l2) (trace w)).
Proof.
  intros Hin.
  destruct (list_remove_present c _ Hin) as (cs' & Hrm).
  destruct (list_remove_split c _ _ Hrm) as (l1 & l2 & Hcs & -> & Hn).
  exists l1, l2. repeat split; [exact Hcs | exact Hn |].
  rewrite mkWorld_db.
  unfold ConnectionManager.disconnect, ConnectionManager.remove. run_monad.
  now rewrite Hrm.
Qed.

Lemma disconnect_removes_first_occurrence_witness :
  let w := mkWorld [] ∅ [4%nat; 7%nat; 4%nat] [] in
  In 7%nat (active_connections w) /\
  ConnectionManager.disconnect 7%nat w =
    (Ret tt, mkWorld [] ∅ [4%nat; 4%nat] []).
Proof.
  intros w.
  assert (H : In 7%nat (active_connections w)) by (simpl; lia).
  split; [exact H|].
  destruct (disconnect_removes_first_occurrence 7%nat w H)
    as (l1 & l2 & _ & _ & Hrun).
  rewrite Hrun. revert Hrun. vm_compute. intros [= <-]. reflexivity.
Defined.

Section BroadcastMore.
Import ConnectionManager.

Lemma list_remove_sublist (c : WebSocket) (cs cs' : list WebSocket) :
  list_remove c cs = Some cs' -> sublist cs' cs.
Proof.
  intros H. destruct (list_remove_split c cs cs' H) as (l1 & l2 & -> & -> & _).
  apply sublist_app; [reflexivity|]. apply sublist_cons. reflexivity.
Qed.

Lemma list_remove_NoDup (c : WebSocket) (cs cs' : list WebSocket) :
  list_remove c cs = Some cs' -> List.NoDup cs ->
  List.NoDup cs' /\ ~ In c cs'.
Proof.
  intros H Hnd. destruct (list_remove_split c cs cs' H) as (l1 & l2 & -> & -> & _).
  split.
  - eapply List.NoDup_remove_1; eassumption.
  - eapply List.NoDup_remove_2; eassumption.
Qed.

(** The loop, with what it leaves and what it sent. *)
Lemma broadcast_loop_sound fails message (fuel : nat) :
  forall (i : nat) (cs : list WebSocket),
  exists cs' sends,
    (forall w : World,
        active_connections w = cs ->
        broadcast_loop fails message fuel i w =
          (Ret tt, Build_World (db_docs w) (uploads w) cs' (trace w ++ sends))) /\
    forallb is_send sends = true /\
    sublist cs' cs /\
    (List.length sends <= List.length cs - i)%nat /\
    (forall c, In c (receivers sends) -> In c cs /\ fails c = false) /\
    (forall c, In c (failed_sockets sends) -> In c cs /\ fails c = true) /\
    (List.NoDup cs -> forall c, In c (failed_sockets sends) -> ~ In c cs').
Proof.
  induction fuel as [|fuel IH]; intros i cs.
  - exists cs, []. simpl. repeat split; try tauto; try lia; try reflexivity.
    intros w <-. rewrite app_nil_r. destruct w; reflexivity.
  - destruct (nth_error cs i) as [c|] eqn:Hn.
    2:{ exists cs, []. simpl. repeat split; try tauto; try lia; try reflexivity.
        intros w <-. run_monad. rewrite Hn, app_nil_r. destruct w; reflexivity. }
    assert (Hi : (i < List.length cs)%nat) by (apply nth_error_Some; congruence).
    assert (Hc : In c cs) by (eapply nth_error_In; eassumption).
    destruct (fails c) eqn:Hf.
    + destruct (list_remove_nth _ _ _ Hn) as (cs1 & Hrm & L).
      destruct (IH (S i) cs1) as (cs' & sends & Hrun & Hs & Hsub & Hlen & Hrec & Hfail & Hnd).
      pose proof (list_remove_sublist _ _ _ Hrm) as Hsub1.
      exists cs', (EvSendFailed c message :: sends). simpl.
      split; [|split; [exact Hs|split; [etrans; eassumption|split; [lia|split; [|split]]]]].
      * intros w <-. run_monad. rewrite Hn, Hf. unfold remove. run_monad.
        rewrite Hrm. simpl. rewrite Hrun by reflexivity. simpl.
        now rewrite <- app_assoc.
      * intros c' Hc'. destruct (Hrec c' Hc') as [Hin ?]. split; [|assumption].
        apply list_elem_of_In. eapply elem_of_sublist; [|exact Hsub1].
        now apply list_elem_of_In.
      * intros c' [<-|Hc']; [auto|]. destruct (Hfail c' Hc') as [Hin ?].
        split; [|assumption].
        apply list_elem_of_In. eapply elem_of_sublist; [|exact Hsub1].
        now apply list_elem_of_In.
      * intros Hnodup c' Hc'.
        destruct (list_remove_NoDup _ _ _ Hrm Hnodup) as [Hnd1 Hout].
        destruct Hc' as [<-|Hc']; [|now apply Hnd].
        intros Hin. apply Hout.
        apply list_elem_of_In. eapply elem_of_sublist; [|exact Hsub].
        now apply list_elem_of_In.
    + destruct (IH (S i) cs) as (cs' & sends & Hrun & Hs & Hsub & Hlen & Hrec & Hfail & Hnd).
      exists cs', (EvSent c message :: sends). simpl.
      split; [|split; [exact Hs|split; [exact Hsub|split; [lia|split; [|split]]]]].
      * intros w <-. run_monad. rewrite Hn, Hf. simpl.
        rewrite Hrun by reflexivity. simpl. now rewrite <- app_assoc.
      * intros c' [<-|Hc']; [auto|]. now apply Hrec.
      * exact Hfail.
      * exact Hnd.
Qed.

Lemma skipn_nth_error {A} (l : list A) (i : nat) (x : A) :
  nth_error l i = Some x -> List.skipn i l = x :: List.skipn (S i) l.
Proof.
  revert i; induction l as [|y t IH]; intros [|i] H; simpl in *;
    try discriminate.
  - now injection H as ->.
  - now apply IH.
Qed.

Lemma sublist_skipn_S {A} (l : list A) (i : nat) :
  sublist (List.skipn (S i) l) (List.skipn i l).
Proof.
  revert i; induction l as [|y t IH]; intros [|i]; simpl.
  - reflexivity.
  - reflexivity.
  - apply sublist_cons. reflexivity.
  - apply IH.
Qed.

(** Taking out the first occurrence of the element at index [i] moves the
    elements after index [i] one place down, and no others past it. *)
Lemma list_remove_skipn (c : WebSocket) (cs cs1 : list WebSocket) (i : nat) :
  nth_error cs i = Some c -> list_remove c cs = Some cs1 ->
  sublist (List.skipn (S i) cs1) (List.skipn (S i) cs).
Proof.
  revert i cs1; induction cs as [|y t IH]; intros i cs1 Hn Hrm;
    [destruct i; discriminate|].
  simpl in Hrm. destruct (Nat.eqb c y) eqn:E.
  - injection Hrm as <-. change (List.skipn (S i) (y :: t)) with (List.skipn i t).
    apply sublist_skipn_S.
  - destruct i as [|i]; simpl in Hn.
    + injection Hn as ->. rewrite Nat.eqb_refl in E. discriminate.
    + destruct (list_remove c t) as [t1|] eqn:Ht; [|discriminate].
      injection Hrm as <-.
      change (sublist (List.skipn (S i) t1) (List.skipn (S i) t)).
      now apply IH.
Qed.

(** The sockets the loop tries from index [i] on are picked, in order, from
    the registry entries at index [i] and after: no entry is tried twice. *)
Lemma broadcast_loop_attempts fails message (fuel : nat) :
  forall (i : nat) (cs : list WebSocket),
  exists cs' sends,
    (forall w : World,
        active_connections w = cs ->
        broadcast_loop fails message fuel i w =
          (Ret tt, Build_World (db_docs w) (uploads w) cs' (trace w ++ sends))) /\
    sublist (attempted sends) (List.skipn i cs).
Proof.
  induction fuel as [|fuel IH]; intros i cs.
  - exists cs, []. simpl. split; [|apply sublist_nil_l].
    intros w <-. rewrite app_nil_r. destruct w; reflexivity.
  - destruct (nth_error cs i) as [c|] eqn:Hn.
    2:{ exists cs, []. simpl. split; [|apply sublist_nil_l].
        intros w <-. run_monad. rewrite Hn, app_nil_r. destruct w; reflexivity. }
    rewrite (skipn_nth_error cs i c Hn).
    destruct (fails c) eqn:Hf.
    + destruct (list_remove_nth _ _ _ Hn) as (cs1 & Hrm & L).
      destruct (IH (S i) cs1) as (cs' & sends & Hrun & Hatt).
      exists cs', (EvSendFailed c message :: sends). simpl. split.
      * intros w <-. run_monad. rewrite Hn, Hf. unfold remove. run_monad.
        rewrite Hrm. simpl. rewrite Hrun by reflexivity. simpl.
        now rewrite <- app_assoc.
      * apply sublist_skip. etrans; [exact Hatt|].
        eapply list_remove_skipn; eassumption.
    + destruct (IH (S i) cs) as (cs' & sends & Hrun & Hatt).
      exists cs', (EvSent c message :: sends). simpl. split.
      * intros w <-. run_monad. rewrite Hn, Hf. simpl.
        rewrite Hrun by reflexivity. simpl. now rewrite <- app_assoc.
      * apply sublist_skip. exact Hatt.
Qed.

End BroadcastMore.

(** X3. A broadcast never raises (the [remove] in its handler always finds
    the socket) and touches neither the message store nor the upload
    directory. The registry it leaves is the one it found with some sockets
    taken out, the others in their order. The sockets it tries, in the order
    it tries them, are picked in order from the registry at entry: each
    entry of the registry is tried at most once, so there are no more sends
    than entries. It delivers only to registered sockets whose send
    succeeds. *)
Theorem broadcast_is_contained
    (fails : WebSocket -> bool) (message : WireEvent) (w : World) :
  exists cs' sends,
    ConnectionManager.broadcast fails message w =
      (Ret tt, mkWorld (db_messages w) (uploads w) cs'
                       (trace w ++ EvBroadcast message :: sends)) /\
    forallb is_send sends = true /\
    sublist cs' (active_connections w) /\
    sublist (attempted sends) (active_connections w) /\
    (List.length sends <= List.length (active_connections w))%nat /\
    (forall c, In c (receivers sends) ->
               In c (active_connections w) /\ fails c = false).
Proof.
  destruct (broadcast_loop_sound fails message
              (List.length (active_connections w)) 0 (active_connections w))
    as (cs' & sends & Hrun & Hs & Hsub & Hlen & Hrec & _).
  destruct (broadcast_loop_attempts fails message
              (List.length (active_connections w)) 0 (active_connections w))
    as (cs2 & sends2 & Hrun2 & Hatt).
  set (w0 := Build_World (db_docs w) (uploads w) (active_connections w)
               (trace w ++ [EvBroadcast message])).
  assert (Hsame : sends2 = sends).
  { specialize (Hrun w0 eq_refl). specialize (Hrun2 w0 eq_refl).
    rewrite Hrun in Hrun2. injection Hrun2 as _ Htr.
    symmetry. eapply app_inv_head. exact Htr. }
  subst sends2.
  exists cs', sends. repeat split; try assumption; try (now apply Hrec); [|lia].
  rewrite mkWorld_db.
  unfold ConnectionManager.broadcast. run_monad.
  rewrite Hrun by reflexivity. simpl. now rewrite <- app_assoc.
Qed.

Lemma broadcast_is_contained_witness :
  let fails := fun ws : WebSocket => Nat.eqb ws 1 in
  let w := mkWorld [] ∅ [1%nat; 2%nat; 3%nat] [] in
  exists sends,
    attempted sends = [1%nat; 3%nat] /\
    sublist (attempted sends) (active_connections w) /\
    In 3%nat (receivers sends) /\
    (In 3%nat (active_connections w) /\ fails 3%nat = false).
Proof.
  intros fails w.
  destruct (broadcast_is_contained fails (Cleanup 1) w)
    as (cs' & sends & Hrun & _ & _ & Hatt & _ & Hrec).
  exists sends.
  assert (Hsends : sends = [EvSendFailed 1%nat (Cleanup 1);
                            EvSent 3%nat (Cleanup 1)]).
  { revert Hrun. vm_compute. intros [= <- <-]. reflexivity. }
  assert (Hin : In 3%nat (receivers sends))
    by (rewrite Hsends; simpl; auto).
  split; [rewrite Hsends; reflexivity|].
  split; [exact Hatt|].
  split; [exact Hin | exact (Hrec 3%nat Hin)].
Defined.

(** X4. When no socket is registered twice, every socket on which a send
    failed during a broadcast was registered, and is not in the registry
    the broadcast leaves. *)
Theorem broadcast_drops_failed_sockets
    (fails : WebSocket -> bool) (message : WireEvent) (w : World) :
  List.NoDup (active_connections w) ->
  let w' := snd (ConnectionManager.broadcast fails message w) in
  forall c, In c (failed_sockets (events_since w w')) ->
            In c (active_connections w) /\ fails c = true /\
            ~ In c (active_connections w').
Proof.
  intros Hnd w' c.
  destruct (broadcast_loop_sound fails message
              (List.length (active_connections w)) 0 (active_connections w))
    as (cs' & sends & Hrun & _ & _ & _ & _ & Hfail & Hout).
  subst w'. unfold ConnectionManager.broadcast. run_monad.
  rewrite Hrun by reflexivity. simpl.
  erewrite events_since_app by (simpl; rewrite <- app_assoc; reflexivity).
  simpl. intros Hc. destruct (Hfail c Hc). repeat split; auto.
Qed.

Lemma broadcast_drops_failed_sockets_witness :
  let fails := fun ws : WebSocket => Nat.eqb ws 3 in
  let w := mkWorld [] ∅ [1%nat; 2%nat; 3%nat] [] in
  let w' := snd (ConnectionManager.broadcast fails (Cleanup 1) w) in
  List.NoDup (active_connections w) /\
  In 3%nat (failed_sockets (events_since w w')) /\
  ~ In 3%nat (active_connections w').
Proof.
  intros fails w w'.
  assert (Hnd : List.NoDup (active_connections w)).
  { simpl. repeat constructor; simpl; lia. }
  assert (Hin : In 3%nat (failed_sockets (events_since w w')))
    by (vm_compute; auto).
  split; [exact Hnd|]. split; [exact Hin|].
  exact (proj2 (proj2 (broadcast_drops_failed_sockets fails (Cleanup 1) w Hnd 3%nat Hin))).
Defined.

(** X5. When every registered socket accepts the send, a broadcast delivers
    the event to each of them once, in registry order, and leaves the
    registry as it was. *)
Theorem broadcast_reaches_all_when_none_fails
    (fails : WebSocket -> bool) (message : WireEvent) (w : World) :
  (forall c, In c (active_connections w) -> fails c = false) ->
  let w' := snd (ConnectionManager.broadcast fails message w) in
  events_since w w' =
    EvBroadcast message ::
    List.map (fun c => EvSent c message) (active_connections w) /\
  active_connections w' = active_connections w.
Proof.
  intros Hok w'. subst w'. unfold ConnectionManager.broadcast. run_monad.
  rewrite (broadcast_loop_healthy fails message (active_connections w) Hok)
    by (simpl; first [reflexivity | lia]).
  simpl. split; [|reflexivity].
  erewrite events_since_app by (simpl; rewrite <- app_assoc; reflexivity).
  simpl. now rewrite List.skipn_O.
Qed.

Lemma broadcast_reaches_all_when_none_fails_witness :
  let w := mkWorld [] ∅ [1%nat; 2%nat; 3%nat] [] in
  (forall c, In c (active_connections w) -> Sample.quiet c = false) /\
  receivers (events_since w
               (snd (ConnectionManager.broadcast Sample.quiet (Cleanup 2) w))) =
    [1%nat; 2%nat; 3%nat].
Proof.
  intros w.
  assert (H : forall c, In c (active_connections w) -> Sample.quiet c = false)
    by reflexivity.
  split; [exact H|].
  rewrite (proj1 (broadcast_reaches_all_when_none_fails
                    Sample.quiet (Cleanup 2) w H)).
  reflexivity.
Defined.

(** ** The sweeps *)

Section SweepMore.

Lemma live_not_expired (t : datetime) (m : Message) :
  Mongo.live_query t m = true -> Mongo.expires_lt t m = false.
Proof.
  unfold Mongo.live_query, Mongo.expires_gt, Mongo.expires_null, Mongo.expires_lt.
  destruct (expires_at m) as [e|]; simpl; [|reflexivity].
  rewrite orb_false_r. intros H. apply Z.ltb_lt in H. apply Z.ltb_ge. lia.
Qed.

Lemma filter_live_after_sweep (t : datetime) (docs : list Message) :
  List.filter (Mongo.live_query t)
    (List.filter (fun m => negb (Mongo.expires_lt t m)) docs) =
  List.filter (Mongo.live_query t) docs.
Proof.
  induction docs as [|m l IH]; simpl; [reflexivity|].
  destruct (Mongo.live_query t m) eqn:Hl.
  - rewrite (live_not_expired _ _ Hl). simpl. rewrite Hl. now f_equal.
  - destruct (Mongo.expires_lt t m); simpl; [exact IH|]. now rewrite Hl.
Qed.

Lemma in_firstn {A} (n : nat) (l : list A) (x : A) :
  In x (List.firstn n l) -> In x l.
Proof.
  intros H. rewrite <- (List.firstn_skipn n l). apply in_or_app. now left.
Qed.

Lemma get_messages_value (env : Env) (w : World) :
  get_messages env w =
    (Ret (List.firstn 1000
            (Mongo.sort_by_timestamp
               (Mongo.find (Mongo.live_query (now env)) (db_messages w)))), w).
Proof. reflexivity. Qed.

End SweepMore.

(** X6. One round of the expiration sweep never raises and never changes
    the upload directory: no file is unlinked, whatever the store holds. *)
Theorem sweep_never_unlinks (env : Env) (w : World) :
  let r := cleanup_expired_messages env w in
  fst r = Ret tt /\
  uploads (snd r) = uploads w /\
  unlinked (events_since w (snd r)) = [].
Proof.
  destruct (cleanup_round env w) as (cs & sends & Hrun & Hs).
  simpl. rewrite Hrun. simpl. repeat split.
  erewrite events_since_app by reflexivity.
  simpl. destruct (Nat.ltb 0 _); simpl; [|reflexivity].
  clear Hrun. induction sends as [|ev l IH]; simpl in *; [reflexivity|].
  destruct ev; simpl in *; try discriminate; auto.
Qed.

(** X7. The expiration sweep removes exactly the stored messages whose
    [expires_at] is strictly before its clock reading cut to the
    millisecond, the way the query sees it: a message is in the store
    afterwards when it was there before and has no [expires_at] or one at
    or after the cut clock reading; the messages that stay keep their
    order. A stored [expires_at] is a whole millisecond, so a message is
    removed once the clock is a millisecond or more past it, and not
    before. *)
Theorem sweep_removes_exactly_the_expired (env : Env) (w : World) :
  let w' := snd (cleanup_expired_messages env w) in
  sublist (db_messages w') (db_messages w) /\
  (forall m, In m (db_messages w') <->
             In m (db_messages w) /\
             (expires_at m = None \/
              exists e, expires_at m = Some e /\ Bson.date (now env) <= e)) /\
  (forall m e, In m (db_messages w) -> expires_at m = Some e ->
               (In m (db_messages w') <-> now env < e + 1000)).
Proof.
  simpl. rewrite cleanup_messages.
  assert (Hmem : forall m,
             In m (List.filter (fun m => negb (Mongo.expires_lt (now env) m))
                               (db_messages w)) <->
             In m (db_messages w) /\
             (expires_at m = None \/
              exists e, expires_at m = Some e /\ Bson.date (now env) <= e)).
  { intros m. rewrite List.filter_In. unfold Mongo.expires_lt.
    destruct (expires_at m) as [e|]; split; intros [Hin H]; split; auto.
    + right. exists e. split; [reflexivity|].
      apply negb_true_iff, Z.ltb_ge in H. exact H.
    + destruct H as [H|(e' & [= <-] & Hle)]; [discriminate|].
      apply negb_true_iff, Z.ltb_ge. exact Hle. }
  split; [|split; [exact Hmem|]].
  - clear Hmem. induction (db_messages w) as [|m l IH]; simpl; [constructor|].
    destruct (negb _); [now apply sublist_skip | now apply sublist_cons].
  - intros m e Hin He. rewrite Hmem.
    pose proof (whole_lt_date e (now env) (stored_expiry_whole w m e Hin He)) as Hw.
    split.
    + intros [_ [Hnone|(e' & He' & Hle)]]; [congruence|].
      assert (e' = e) by congruence. subst e'. lia.
    + intros Hlt. split; [exact Hin|]. right. exists e. split; [exact He|]. lia.
Qed.

Lemma sweep_removes_exactly_the_expired_witness :
  let env := Sample.env_at (Sample.T0 + Sample.seconds 60 + 500) in
  let e := Sample.T0 + Sample.seconds 60 in
  (In Sample.with_attachment (db_messages Sample.stale_world) /\
   expires_at Sample.with_attachment = Some e) /\
  now env < e + 1000 /\
  In Sample.with_attachment
     (db_messages (snd (cleanup_expired_messages env Sample.stale_world))).
Proof.
  intros env e.
  assert (H1 : In Sample.with_attachment (db_messages Sample.stale_world))
    by (vm_compute; auto).
  assert (H2 : expires_at Sample.with_attachment = Some e) by reflexivity.
  assert (H3 : now env < e + 1000) by (vm_compute; reflexivity).
  split; [split; assumption|]. split; [exact H3|].
  exact (proj2 (proj2 (proj2 (sweep_removes_exactly_the_expired
                                env Sample.stale_world))
                  Sample.with_attachment e H1 H2) H3).
Defined.

(** X8. A message whose [expires_at] equals the clock reading is neither
    listed by [get_messages] nor removed by the expiration sweep at that
    reading. *)
Theorem expiring_now_is_kept_but_not_listed
    (env : Env) (w : World) (m : Message) :
  In m (db_messages w) ->
  expires_at m = Some (now env) ->
  In m (db_messages (snd (cleanup_expired_messages env w))) /\
  ~ In m (Sample.returned (get_messages env w)).
Proof.
  intros Hin Hexp. split.
  - rewrite cleanup_messages. apply List.filter_In. split; [exact Hin|].
    unfold Mongo.expires_lt. rewrite Hexp. apply negb_true_iff, Z.ltb_ge.
    apply date_le.
  - unfold Sample.returned. rewrite get_messages_value. cbn [fst]. intros Hm.
    apply in_firstn in Hm. apply sorted_live_members in Hm.
    destruct Hm as [_ Hlive]. unfold live in Hlive. rewrite Hexp in Hlive. lia.
Qed.

Lemma expiring_now_is_kept_but_not_listed_witness :
  let env := Sample.env_at (Sample.T0 + Sample.seconds 60) in
  (In Sample.with_attachment (db_messages Sample.stale_world) /\
   expires_at Sample.with_attachment = Some (now env)) /\
  In Sample.with_attachment
     (db_messages (snd (cleanup_expired_messages env Sample.stale_world))) /\
  ~ In Sample.with_attachment (Sample.returned (get_messages env Sample.stale_world)).
Proof.
  intros env.
  assert (H1 : In Sample.with_attachment (db_messages Sample.stale_world))
    by (vm_compute; auto).
  assert (H2 : expires_at Sample.with_attachment = Some (now env))
    by reflexivity.
  split; [split; assumption|].
  exact (expiring_now_is_kept_but_not_listed env Sample.stale_world _ H1 H2).
Defined.

(** X9. At one clock reading, [get_messages] returns the same list after a
    round of the expiration sweep as before it: the sweep removes nothing
    that retrieval would have listed. *)
Theorem sweep_does_not_change_the_listing (env : Env) (w : World) :
  fst (get_messages env (snd (cleanup_expired_messages env w))) =
  fst (get_messages env w).
Proof.
  rewrite !get_messages_value. cbn [fst]. rewrite cleanup_messages.
  unfold Mongo.find. now rewrite filter_live_after_sweep.
Qed.

Section ResetMore.

Lemma for_each_unlink_run (files : list string) :
  forall w : World,
    for_each files Fs.unlink w =
      (Ret tt,
       Build_World (db_docs w)
               (List.fold_left (fun fs p => delete p fs) files (uploads w))
               (active_connections w)
               (trace w ++ List.map EvFileUnlink files)).
Proof.
  induction files as [|p rest IH]; intros w; simpl.
  - rewrite app_nil_r. destruct w; reflexivity.
  - unfold Fs.unlink. run_monad. rewrite IH. simpl.
    now rewrite <- app_assoc.
Qed.

Lemma lookup_fold_delete (files : list string) :
  forall (fs : gmap string (list Byte.byte)) (k : string),
    List.fold_left (fun fs p => delete p fs) files fs !! k =
    if bool_decide (k ∈ files) then None else fs !! k.
Proof.
  induction files as [|p rest IH]; intros fs k; cbn [List.fold_left].
  - case_bool_decide as H; [|reflexivity]. now apply elem_of_nil in H.
  - rewrite IH. destruct (decide (k = p)) as [->|Hne].
    + rewrite lookup_delete_eq.
      rewrite (bool_decide_eq_true_2 (p ∈ p :: rest))
        by (apply elem_of_cons; auto).
      now destruct (bool_decide (p ∈ rest)).
    + rewrite lookup_delete_ne by congruence.
      destruct (decide (k ∈ rest)) as [Hin|Hout].
      * rewrite (bool_decide_eq_true_2 (k ∈ rest)) by exact Hin.
        rewrite (bool_decide_eq_true_2 (k ∈ p :: rest))
          by (apply elem_of_cons; auto).
        reflexivity.
      * rewrite (bool_decide_eq_false_2 (k ∈ rest)) by exact Hout.
        rewrite (bool_decide_eq_false_2 (k ∈ p :: rest))
          by (rewrite elem_of_cons; tauto).
        reflexivity.
Qed.

Lemma in_glob_files (dir : string) (fs : gmap string (list Byte.byte)) (k : string) :
  In k (List.filter (Fs.child_of dir) (List.map fst (map_to_list fs))) <->
  Fs.child_of dir k = true /\ is_Some (fs !! k).
Proof.
  rewrite List.filter_In, List.in_map_iff. split.
  - intros [([k' v] & <- & Hin) Hc]. split; [exact Hc|].
    apply list_elem_of_In, elem_of_map_to_list in Hin. simpl. eauto.
  - intros [Hc [v Hv]]. split; [|exact Hc].
    exists (k, v). split; [reflexivity|].
    now apply list_elem_of_In, elem_of_map_to_list.
Qed.

Lemma broadcasts_sends (sends : list Event) :
  forallb is_send sends = true -> broadcasts sends = [].
Proof.
  induction sends as [|ev l IH]; simpl; [reflexivity|].
  destruct ev; simpl; try discriminate; exact IH.
Qed.

Lemma broadcasts_app (l1 l2 : list Event) :
  broadcasts (l1 ++ l2) = (broadcasts l1 ++ broadcasts l2)%list.
Proof.
  induction l1 as [|ev l IH]; simpl; [reflexivity|].
  destruct ev; simpl; now rewrite ?IH.
Qed.

Lemma broadcasts_unlinks (files : list string) :
  broadcasts (List.map EvFileUnlink files) = [].
Proof. induction files; simpl; auto. Qed.

Lemma auto_clear_lookup (env : Env) (w : World) (k : string) :
  uploads (snd (auto_clear_all_messages env w)) !! k =
  if Fs.child_of UPLOAD_DIR k then None else uploads w !! k.
Proof.
  unfold auto_clear_all_messages, Fs.glob_files. run_monad.
  rewrite for_each_unlink_run. simpl.
  edestruct (broadcast_frame (send_fails env)) as (cs & sends & Hs & Hrun).
  rewrite Hrun by reflexivity. simpl.
  rewrite lookup_fold_delete.
  destruct (Fs.child_of UPLOAD_DIR k) eqn:Hc.
  - destruct (uploads w !! k) as [v|] eqn:Hk.
    + rewrite bool_decide_eq_true_2; [reflexivity|].
      apply list_elem_of_In, in_glob_files. rewrite Hk. eauto.
    + destruct (bool_decide _); reflexivity.
  - rewrite bool_decide_eq_false_2; [reflexivity|].
    intros Hin. apply list_elem_of_In, in_glob_files in Hin.
    destruct Hin as [Hc' _]. congruence.
Qed.

End ResetMore.

(** X10. One round of the full reset never raises. It leaves the message
    store empty; in the upload directory's map every regular file that is a
    direct child of [uploads] is gone and every other path keeps its
    contents; and it hands exactly one [auto_clear] event to the broadcast,
    also when there was nothing to delete. After it [get_messages] returns
    the empty list. *)
Theorem full_reset_clears_store_and_uploads (env : Env) (w : World) :
  let r := auto_clear_all_messages env w in
  fst r = Ret tt /\
  db_messages (snd r) = [] /\
  (forall k, uploads (snd r) !! k =
             if Fs.child_of UPLOAD_DIR k then None else uploads w !! k) /\
  broadcasts (events_since w (snd r)) =
    [AutoClear "All messages have been automatically cleared (1-hour cleanup)"] /\
  (forall env', fst (get_messages env' (snd r)) = Ret []).
Proof.
  intros r. split; [|split; [|split; [subst r; apply auto_clear_lookup|]]];
    subst r; unfold auto_clear_all_messages, Fs.glob_files; run_monad;
    rewrite for_each_unlink_run; simpl;
    edestruct (broadcast_frame (send_fails env)) as (cs & sends & Hs & Hrun);
    rewrite Hrun by reflexivity; simpl;
    assert (Hnil : List.filter (fun _ : Message => false) (db_messages w) = [])
      by (induction (db_messages w); simpl; auto);
    rewrite ?Hnil; [reflexivity | reflexivity |].
  split.
  - erewrite events_since_app
      by (simpl; rewrite <- !app_assoc; reflexivity).
    simpl. rewrite broadcasts_app, broadcasts_unlinks. simpl.
    now rewrite broadcasts_sends.
  - intros env'. reflexivity.
Qed.

(** ** Ingestion *)

Ltac step_app :=
  repeat match goal with
    | |- context [String.append (String ?a ?r) ?t] =>
        change (String.append (String a r) t) with (String a (String.append r t))
    | |- context [String.append EmptyString ?t] =>
        change (String.append EmptyString t) with t
    end.

Section IngestionMore.

Lemma split_no_sep_inside (sep : ascii) (s x : string) :
  In x (PyStr.split sep s) -> PyStr.contains sep x = false.
Proof.
  revert x; induction s as [|c r IH]; intros x; simpl.
  - intros [<-|[]]. reflexivity.
  - destruct (Ascii.eqb c sep) eqn:E.
    + intros [<-|Hin]; [reflexivity | now apply IH].
    + destruct (PyStr.split sep r) as [|h t] eqn:Hs.
      * intros [<-|[]]. simpl. now rewrite E.
      * intros [<-|Hin].
        -- simpl. rewrite E. simpl. apply IH. now left.
        -- apply IH. now right.
Qed.

Lemma last_in_or_default {A} (l : list A) (d : A) :
  List.last l d = d \/ In (List.last l d) l.
Proof.
  induction l as [|x t IH]; [now left|].
  destruct t as [|y t']; [right; now left|].
  change (List.last (x :: y :: t') d) with (List.last (y :: t') d).
  destruct IH as [->|Hin]; [now left | right; now right].
Qed.

Lemma name_no_slash (p : string) :
  PyStr.contains "/" (PyPath.name p) = false.
Proof.
  unfold PyPath.name, PyPath.parts.
  destruct (last_in_or_default
              (List.filter PyPath.keep_part (PyStr.split "/" p)) "") as [->|Hin];
    [reflexivity|].
  apply List.filter_In in Hin. destruct Hin as [Hin _].
  eapply split_no_sep_inside; eassumption.
Qed.

Lemma drop_no_char (c : ascii) (n : nat) (s : string) :
  PyStr.contains c s = false -> PyStr.contains c (PyStr.drop n s) = false.
Proof.
  revert s; induction n as [|n IH]; intros s H; [exact H|].
  destruct s as [|a r]; [reflexivity|]. simpl in *.
  apply orb_false_iff in H as [_ Hr]. now apply IH.
Qed.

Lemma suffix_no_slash (p : string) :
  PyStr.contains "/" (PyPath.suffix p) = false.
Proof.
  unfold PyPath.suffix, PyStr.slice_from.
  destruct (_ && _); [|reflexivity].
  apply drop_no_char, name_no_slash.
Qed.

Lemma stored_path_is_child (file_id ext : string) :
  file_id <> "" ->
  PyStr.contains "/" file_id = false ->
  PyStr.contains "/" ext = false ->
  Fs.child_of UPLOAD_DIR (UPLOAD_DIR ++ "/" ++ file_id ++ ext) = true.
Proof.
  intros Hne Hid Hext. unfold Fs.child_of, UPLOAD_DIR. step_app. simpl.
  rewrite contains_app, Hid, Hext. simpl.
  destruct file_id; [congruence|]. step_app. reflexivity.
Qed.

(** An accepted request is its writes followed by the broadcast. *)
Lemma create_message_factor (env : Env) (text author : string) (ttl : Z)
    (std : bool) (file : option UploadFile) (w : World) (e : datetime) :
  upload_allowed file = true ->
  PyTime.after_seconds (now env) ttl = Some e ->
  upload_fits env file = true ->
  exists m fs pre,
    create_message env text author ttl std file w =
      (Ret m,
       snd (ConnectionManager.broadcast (send_fails env) (NewMessage m)
              (Build_World (db_docs w ++ [Bson.encode m]) fs (active_connections w)
                       (trace w ++ pre)))) /\
    match named_upload file with
    | Some (f, fname) =>
        let path := UPLOAD_DIR ++ "/" ++ uuid_file env ++ PyPath.suffix fname in
        let size := Z.of_nat (List.length (payload f)) in
        m = mkMessage (uuid_msg env) text author (now_created env)
                      (Some ttl) (Some e) (Some path) (Some fname) (Some size) /\
        fs = <[path := payload f]> (uploads w) /\
        pre = EvFileWrite path size :: EvInsert m ::
              (if std
               then [EvRelay ("**" ++ author ++ "**: " ++ text) true
                             (relay_ok (relay env))]
               else [])
    | None =>
        m = mkMessage (uuid_msg env) text author (now_created env)
                      (Some ttl) (Some e) None None None /\
        fs = uploads w /\
        pre = EvInsert m ::
              (if std
               then [EvRelay ("**" ++ author ++ "**: " ++ text) false
                             (relay_ok (relay env))]
               else [])
    end.
Proof.
  unfold upload_allowed, upload_fits, stored_path. intros Hal Hexp Hfit.
  destruct (named_upload file) as [[f fname]|] eqn:Hnu.
  - set (path := UPLOAD_DIR ++ "/" ++ uuid_file env ++ PyPath.suffix fname).
    set (m := mkMessage (uuid_msg env) text author (now_created env)
                (Some ttl) (Some e) (Some path) (Some fname)
                (Some (Z.of_nat (List.length (payload f))))).
    exists m, (<[path := payload f]> (uploads w)).
    eexists. split; [|repeat split].
    destruct (broadcast_frame (send_fails env) (NewMessage m) (active_connections w))
      as (cs & sends & _ & Hrun).
    unfold create_message, expiry_of. rewrite Hnu, Hal. simpl. rewrite Hexp.
    unfold Fs.write. rewrite Hfit. unfold send_to_discord_webhook. run_monad.
    fold path. fold m.
    assert (Hwf : bool_decide (is_Some (<[path := payload f]> (uploads w) !! path))
                  = true).
    { rewrite lookup_insert_eq. apply bool_decide_eq_true_2. eauto. }
    destruct std; simpl.
    + rewrite Hwf.
      destruct (relay env); simpl; rewrite !Hrun by reflexivity; simpl;
        rewrite <- !app_assoc; reflexivity.
    + rewrite !Hrun by reflexivity; simpl. rewrite <- !app_assoc. reflexivity.
  - set (m := mkMessage (uuid_msg env) text author (now_created env)
                (Some ttl) (Some e) None None None).
    exists m, (uploads w).
    eexists. split; [|repeat split].
    destruct (broadcast_frame (send_fails env) (NewMessage m) (active_connections w))
      as (cs & sends & _ & Hrun).
    unfold create_message, expiry_of. rewrite Hnu. simpl. rewrite Hexp.
    unfold send_to_discord_webhook. run_monad. fold m.
    destruct std; simpl.
    + destruct (relay env); simpl; rewrite !Hrun by reflexivity; simpl;
        rewrite <- !app_assoc; reflexivity.
    + rewrite !Hrun by reflexivity; simpl. rewrite <- !app_assoc. reflexivity.
Qed.

End IngestionMore.

Section IngestionFacts.

Lemma after_seconds_in_range (d : datetime) (s : Z) :
  PyTime.in_range d = true ->
  PyTime.after_seconds d s =
    if PyTime.in_range (d + s * 1000000) then Some (d + s * 1000000) else None.
Proof.
  intros Hd.
  unfold PyTime.after_seconds, PyTime.timedelta_seconds, PyTime.add.
  change (s * PyTime.US_PER_SECOND) with (s * 1000000).
  match goal with
  | |- context [if ?b then Some (s * 1000000) else None] => destruct b eqn:Hdays
  end; [reflexivity|].
  destruct (PyTime.in_range (d + s * 1000000)) eqn:Hr; [|reflexivity].
  exfalso.
  unfold PyTime.in_range, PyTime.MAX_ORDINAL, PyTime.SECONDS_PER_DAY,
    PyTime.US_PER_SECOND in Hd, Hr.
  unfold PyTime.MAX_DELTA_DAYS, PyTime.SECONDS_PER_DAY in Hdays.
  apply andb_true_iff in Hd as [Hd0 Hd1].
  apply Z.leb_le in Hd0. apply Z.ltb_lt in Hd1.
  apply andb_true_iff in Hr as [Hr0 Hr1].
  apply Z.leb_le in Hr0. apply Z.ltb_lt in Hr1.
  pose proof (Z.div_mod s 86400 ltac:(lia)).
  pose proof (Z.mod_pos_bound s 86400 ltac:(lia)).
  apply andb_false_iff in Hdays as [Hdays|Hdays];
    [apply Z.leb_gt in Hdays | apply Z.leb_gt in Hdays]; lia.
Qed.

Lemma broadcast_run_healthy fails message (w : World) :
  (forall c, In c (active_connections w) -> fails c = false) ->
  ConnectionManager.broadcast fails message w =
    (Ret tt,
     Build_World (db_docs w) (uploads w) (active_connections w)
             (trace w ++ EvBroadcast message ::
                List.map (fun c => EvSent c message) (active_connections w))).
Proof.
  intros Hok. unfold ConnectionManager.broadcast. run_monad.
  rewrite (broadcast_loop_healthy fails message (active_connections w) Hok)
    by (simpl; first [reflexivity | lia]).
  simpl. rewrite List.skipn_O. now rewrite <- app_assoc.
Qed.

Lemma broadcast_keeps_store fails message (w : World) :
  db_messages (snd (ConnectionManager.broadcast fails message w)) = db_messages w /\
  uploads (snd (ConnectionManager.broadcast fails message w)) = uploads w.
Proof.
  destruct (broadcast_frame fails message (active_connections w))
    as (cs & sends & _ & Hrun).
  rewrite Hrun by reflexivity. auto.
Qed.

End IngestionFacts.

(** X11. The exceptions modelled for [create_message] are all raised before
    it has written anything: the 400 of the deny-list when the upload is
    refused, an [OverflowError] of the date arithmetic when the expiry is
    not a representable date, and the [OSError] of [open] when the name the
    upload is to be stored under is too long for a directory entry (no file
    is created then). Whenever the handler raises, it is one of these, in
    the stated case, and the message store, the upload directory, the
    registry and the trace are what they were. A failure of the collection,
    which would come after the upload is written, is not modelled: the
    collection is taken to answer every call. *)
Theorem create_message_raises_before_writing
    (env : Env) (text author : string) (ttl : Z) (std : bool)
    (file : option UploadFile) (w w' : World) (e : Exn) :
  create_message env text author ttl std file w = (Raise e, w') ->
  w' = w /\
  ((e = HTTPException 400 "File type not allowed" /\
    upload_allowed file = false) \/
   (e = OverflowError /\
    upload_allowed file = true /\
    PyTime.after_seconds (now env) ttl = None) \/
   (e = OSError Fs.ENAMETOOLONG /\
    upload_allowed file = true /\
    PyTime.after_seconds (now env) ttl <> None /\
    upload_fits env file = false)).
Proof.
  intros Hrun.
  destruct (upload_allowed file) eqn:Hal.
  2:{ rewrite create_message_denied in Hrun by exact Hal.
      injection Hrun as <- <-. auto. }
  destruct (PyTime.after_seconds (now env) ttl) as [t|] eqn:Hexp.
  2:{ rewrite create_message_overflow in Hrun by assumption.
      injection Hrun as <- <-. split; [reflexivity|].
      right. left. repeat split. }
  destruct (upload_fits env file) eqn:Hfit.
  2:{ rewrite (create_message_too_long _ _ _ _ _ _ _ t) in Hrun by assumption.
      injection Hrun as <- <-. split; [reflexivity|].
      right. right. repeat split. discriminate. }
  destruct (create_message_factor env text author ttl std file w t Hal Hexp Hfit)
    as (m & fs & pre & Heq & _).
  rewrite Heq in Hrun. discriminate.
Qed.

Lemma create_message_raises_before_writing_witness :
  let env := Sample.env_at Sample.T0 in
  let f := mkUpload (Some Sample.long_name) Sample.hello in
  (create_message env "hello" "erin" (10 ^ 15) true None Sample.stale_world =
     (Raise OverflowError, Sample.stale_world) /\
   Sample.stale_world = Sample.stale_world) /\
  (create_message env "hello" "erin" 60 true (Some f) Sample.stale_world =
     (Raise (OSError Fs.ENAMETOOLONG), Sample.stale_world) /\
   Sample.stale_world = Sample.stale_world).
Proof.
  intros env f.
  assert (H : create_message env "hello" "erin" (10 ^ 15) true None
                Sample.stale_world = (Raise OverflowError, Sample.stale_world))
    by (vm_compute; reflexivity).
  assert (H' : create_message env "hello" "erin" 60 true (Some f)
                 Sample.stale_world =
               (Raise (OSError Fs.ENAMETOOLONG), Sample.stale_world))
    by (vm_compute; reflexivity).
  split; (split; [assumption|]).
  - exact (proj1 (create_message_raises_before_writing _ _ _ _ _ _ _ _ _ H)).
  - exact (proj1 (create_message_raises_before_writing _ _ _ _ _ _ _ _ _ H')).
Defined.

(** X12. With the clock inside the range of [datetime] and an upload the
    deny-list lets through (or none), [create_message] raises
    [OverflowError] exactly when the clock reading plus [ttl_seconds] falls
    outside the years 1 to 9999; the bound on [timedelta] itself is never
    the one that decides. *)
Theorem create_message_overflows_outside_datetime_range
    (env : Env) (text author : string) (ttl : Z) (std : bool)
    (file : option UploadFile) (w : World) :
  PyTime.in_range (now env) = true ->
  upload_allowed file = true ->
  (fst (create_message env text author ttl std file w) = Raise OverflowError <->
   PyTime.in_range (now env + ttl * 1000000) = false).
Proof.
  intros Hnow Hal.
  pose proof (after_seconds_in_range (now env) ttl Hnow) as Hafter.
  destruct (PyTime.in_range (now env + ttl * 1000000)) eqn:Hr.
  - destruct (upload_fits env file) eqn:Hfit.
    + destruct (create_message_factor env text author ttl std file w _
                  Hal Hafter Hfit) as (m & fs & pre & -> & _).
      simpl. split; discriminate.
    + rewrite (create_message_too_long _ _ _ _ _ _ _ _ Hal Hafter Hfit).
      simpl. split; discriminate.
  - rewrite create_message_overflow by assumption. simpl. tauto.
Qed.

Lemma create_message_overflows_outside_datetime_range_witness :
  let env := Sample.env_at Sample.T0 in
  (PyTime.in_range (now env) = true /\ upload_allowed None = true) /\
  PyTime.in_range (now env + (- 70000000000) * 1000000) = false /\
  fst (create_message env "hello" "erin" (- 70000000000) false None
         Sample.empty_world) = Raise OverflowError.
Proof.
  intros env.
  assert (H1 : PyTime.in_range (now env) = true) by reflexivity.
  assert (H2 : upload_allowed None = true) by reflexivity.
  assert (H3 : PyTime.in_range (now env + (- 70000000000) * 1000000) = false)
    by reflexivity.
  split; [split; assumption|]. split; [exact H3|].
  exact (proj2 (create_message_overflows_outside_datetime_range
                  env "hello" "erin" (- 70000000000) false None
                  Sample.empty_world H1 H2) H3).
Defined.

(** X13. An accepted request with a named upload writes the payload to
    [uploads/<uuid><suffix of the file name>] and to no other path, and
    returns a message whose [file_path] is that path, whose [file_name] is
    the client's file name and whose [file_size] is the number of bytes
    written. When the uuid is a non-empty name without a slash the path is
    a direct child of the upload directory. *)
Theorem accepted_upload_is_stored_under_its_uuid
    (env : Env) (text author : string) (ttl : Z) (std : bool)
    (f : UploadFile) (fname : string) (w w' : World) (m : Message) :
  named_upload (Some f) = Some (f, fname) ->
  create_message env text author ttl std (Some f) w = (Ret m, w') ->
  let path := UPLOAD_DIR ++ "/" ++ uuid_file env ++ PyPath.suffix fname in
  file_path m = Some path /\
  file_name m = Some fname /\
  file_size m = Some (Z.of_nat (List.length (payload f))) /\
  uploads w' = <[path := payload f]> (uploads w) /\
  (uuid_file env <> "" -> PyStr.contains "/" (uuid_file env) = false ->
   Fs.child_of UPLOAD_DIR path = true).
Proof.
  intros Hnu Hrun path.
  destruct (create_message_ret _ _ _ _ _ _ _ _ _ Hrun) as (Hal & Hfit & Hexp & _).
  destruct (create_message_factor env text author ttl std (Some f) w _ Hal Hexp Hfit)
    as (m0 & fs & pre & Heq & Hshape).
  rewrite Hnu in Hshape. destruct Hshape as (Hm & Hfs & _).
  rewrite Heq in Hrun. injection Hrun as <- <-.
  rewrite (proj2 (broadcast_keeps_store _ _ _)). simpl.
  subst m0 fs. repeat split.
  intros Hne Hid. apply stored_path_is_child; auto using suffix_no_slash.
Qed.

Lemma accepted_upload_is_stored_under_its_uuid_witness :
  let env := Sample.env_at Sample.T0 in
  let f := mkUpload (Some "Report.TXT") Sample.hello in
  let r := create_message env "see file" "erin" 60 false (Some f) Sample.empty_world in
  named_upload (Some f) = Some (f, "Report.TXT") /\
  (exists m, r = (Ret m, snd r) /\ file_path m = Some "uploads/5f0c.TXT") /\
  uploads (snd r) !! "uploads/5f0c.TXT" = Some Sample.hello.
Proof.
  intros env f r.
  assert (H1 : named_upload (Some f) = Some (f, "Report.TXT")) by reflexivity.
  assert (H2 : r = (Ret (mkMessage "9a1e" "see file" "erin" Sample.T0 (Some 60)
                           (Some (Sample.T0 + Sample.seconds 60))
                           (Some "uploads/5f0c.TXT") (Some "Report.TXT") (Some 2)),
                    snd r))
    by (vm_compute; reflexivity).
  pose proof (accepted_upload_is_stored_under_its_uuid
                env "see file" "erin" 60 false f "Report.TXT"
                Sample.empty_world _ _ H1 H2) as (Hp & _ & _ & Hfs & _).
  split; [exact H1|]. split.
  - eexists. split; [exact H2|]. reflexivity.
  - rewrite Hfs. vm_compute. reflexivity.
Defined.

(** X14. An accepted request without a named upload (no file, or a file
    whose name is missing or empty) writes no file: the upload directory is
    unchanged and the message's three file fields are [None]. *)
Theorem unnamed_upload_stores_no_file
    (env : Env) (text author : string) (ttl : Z) (std : bool)
    (file : option UploadFile) (w w' : World) (m : Message) :
  named_upload file = None ->
  create_message env text author ttl std file w = (Ret m, w') ->
  uploads w' = uploads w /\
  file_path m = None /\ file_name m = None /\ file_size m = None.
Proof.
  intros Hnu Hrun.
  destruct (create_message_ret _ _ _ _ _ _ _ _ _ Hrun) as (Hal & Hfit & Hexp & _).
  destruct (create_message_factor env text author ttl std file w _ Hal Hexp Hfit)
    as (m0 & fs & pre & Heq & Hshape).
  rewrite Hnu in Hshape. destruct Hshape as (Hm & Hfs & _).
  rewrite Heq in Hrun. injection Hrun as <- <-.
  rewrite (proj2 (broadcast_keeps_store _ _ _)). simpl.
  subst m0 fs. repeat split.
Qed.

Lemma unnamed_upload_stores_no_file_witness :
  let env := Sample.env_at Sample.T0 in
  let f := mkUpload (Some "") Sample.hello in
  let r := create_message env "no name" "erin" 60 false (Some f) Sample.stale_world in
  named_upload (Some f) = None /\
  (exists m, r = (Ret m, snd r)) /\
  uploads (snd r) = uploads Sample.stale_world.
Proof.
  intros env f r.
  assert (H1 : named_upload (Some f) = None) by reflexivity.
  assert (H2 : r = (Ret (mkMessage "9a1e" "no name" "erin" Sample.T0 (Some 60)
                           (Some (Sample.T0 + Sample.seconds 60))
                           None None None), snd r))
    by (vm_compute; reflexivity).
  split; [exact H1|]. split; [eexists; exact H2|].
  exact (proj1 (unnamed_upload_stores_no_file
                  env "no name" "erin" 60 false (Some f)
                  Sample.stale_world _ _ H1 H2)).
Defined.

(** X15. When every registered socket accepts the send, an accepted create
    delivers one [new_message] event carrying the returned message to each
    registered socket, in registry order, after its writes, and leaves the
    registry as it was. *)
Theorem create_message_notifies_every_viewer
    (env : Env) (text author : string) (ttl : Z) (std : bool)
    (file : option UploadFile) (w w' : World) (m : Message) :
  (forall c, In c (active_connections w) -> send_fails env c = false) ->
  create_message env text author ttl std file w = (Ret m, w') ->
  active_connections w' = active_connections w /\
  exists pre,
    events_since w w' =
      (pre ++ EvBroadcast (NewMessage m) ::
         List.map (fun c => EvSent c (NewMessage m)) (active_connections w))%list /\
    receivers pre = [] /\ broadcasts pre = [].
Proof.
  intros Hok Hrun.
  destruct (create_message_ret _ _ _ _ _ _ _ _ _ Hrun) as (Hal & Hfit & Hexp & _).
  destruct (create_message_factor env text author ttl std file w _ Hal Hexp Hfit)
    as (m0 & fs & pre & Heq & Hshape).
  rewrite Heq in Hrun. injection Hrun as <- <-.
  rewrite broadcast_run_healthy by exact Hok. simpl.
  split; [reflexivity|]. exists pre. split.
  - apply events_since_app. simpl. now rewrite <- app_assoc.
  - destruct (named_upload file) as [[f fname]|];
      destruct Hshape as (_ & _ & ->); destruct std; auto.
Qed.

Lemma create_message_notifies_every_viewer_witness :
  let env := Sample.env_at Sample.T0 in
  let r := create_message env "hello" "erin" 60 false None Sample.one_viewer in
  (forall c, In c (active_connections Sample.one_viewer) -> send_fails env c = false) /\
  (exists m, r = (Ret m, snd r)) /\
  active_connections (snd r) = [7%nat].
Proof.
  intros env r.
  assert (H1 : forall c, In c (active_connections Sample.one_viewer) ->
                         send_fails env c = false) by reflexivity.
  assert (H2 : r = (Ret (mkMessage "9a1e" "hello" "erin" Sample.T0 (Some 60)
                           (Some (Sample.T0 + Sample.seconds 60))
                           None None None), snd r))
    by (vm_compute; reflexivity).
  split; [exact H1|]. split; [eexists; exact H2|].
  exact (proj1 (create_message_notifies_every_viewer
                  env "hello" "erin" 60 false None Sample.one_viewer _ _ H1 H2)).
Defined.

Section Lifecycle.

Lemma sorted_live_length (t : datetime) (docs : list Message) :
  (List.length (Mongo.sort_by_timestamp (Mongo.find (Mongo.live_query t) docs))
   <= List.length docs)%nat.
Proof.
  unfold Mongo.sort_by_timestamp, Mongo.find.
  rewrite (Permutation_length (merge_sort_Permutation _ _)).
  pose proof (List.filter_length (Mongo.live_query t) docs). lia.
Qed.

Lemma relay_filter_sends (sends : list Event) :
  forallb is_send sends = true -> List.filter is_relay sends = [].
Proof.
  induction sends as [|ev l IH]; simpl; [reflexivity|].
  destruct ev; simpl; try discriminate; exact IH.
Qed.

End Lifecycle.

(** X16. A message just created is listed while it lasts: when fewer than
    1000 messages were stored before, [get_messages] returns a list that
    contains the stored message (the returned one with its dates cut to the
    millisecond) exactly at the clock readings before the stored
    [expires_at], which is the creation clock plus [ttl_seconds] cut to the
    millisecond. *)
Theorem created_message_is_listed_until_it_expires
    (env env' : Env) (text author : string) (ttl : Z) (std : bool)
    (file : option UploadFile) (w w' : World) (m : Message) :
  create_message env text author ttl std file w = (Ret m, w') ->
  (List.length (db_messages w) < 1000)%nat ->
  expires_at (Bson.through m) = Some (Bson.date (now env + ttl * 1000000)) /\
  exists ms,
    get_messages env' w' = (Ret ms, w') /\
    (In (Bson.through m) ms <->
     now env' < Bson.date (now env + ttl * 1000000)).
Proof.
  intros Hrun Hlen.
  destruct (create_message_ret _ _ _ _ _ _ _ _ _ Hrun)
    as (_ & _ & _ & Hdb & _ & _ & _ & Hexp).
  assert (Hst : expires_at (Bson.through m) =
                Some (Bson.date (now env + ttl * 1000000)))
    by (rewrite through_expires_at, Hexp; reflexivity).
  split; [exact Hst|].
  eexists. split; [apply get_messages_value|].
  rewrite List.firstn_all2.
  - rewrite sorted_live_members. unfold live. rewrite Hst.
    split; [tauto|]. intros Hclock. split; [|exact Hclock].
    rewrite Hdb. apply in_or_app. right. now left.
  - etransitivity; [apply sorted_live_length|].
    rewrite Hdb, List.length_app. simpl. lia.
Qed.

Lemma created_message_is_listed_until_it_expires_witness :
  let env := Sample.env_at (Sample.T0 + 500) in
  let env' := Sample.env_at (Sample.T0 + Sample.seconds 1) in
  let late := Sample.env_at (Sample.T0 + Sample.seconds 2 + 200) in
  let r := create_message env "TTL test" "TTLTestUser" 2 false None
                          Sample.stale_world in
  let m := mkMessage "9a1e" "TTL test" "TTLTestUser" (Sample.T0 + 500)
                     (Some 2) (Some (Sample.T0 + 500 + Sample.seconds 2))
                     None None None in
  let stored := mkMessage "9a1e" "TTL test" "TTLTestUser" Sample.T0
                     (Some 2) (Some (Sample.T0 + Sample.seconds 2))
                     None None None in
  (r = (Ret m, snd r) /\
   (List.length (db_messages Sample.stale_world) < 1000)%nat) /\
  Bson.through m = stored /\
  (exists ms, get_messages env' (snd r) = (Ret ms, snd r) /\ In stored ms) /\
  (exists ms, get_messages late (snd r) = (Ret ms, snd r) /\ ~ In stored ms).
Proof.
  intros env env' late r m stored.
  assert (H1 : r = (Ret m, snd r)) by (vm_compute; reflexivity).
  assert (H2 : (List.length (db_messages Sample.stale_world) < 1000)%nat)
    by (vm_compute; lia).
  assert (H3 : Bson.through m = stored) by (vm_compute; reflexivity).
  split; [split; assumption|]. split; [exact H3|]. split.
  - destruct (proj2 (created_message_is_listed_until_it_expires
                       env env' "TTL test" "TTLTestUser" 2 false None
                       Sample.stale_world _ _ H1 H2))
      as (ms & Hget & Hiff).
    exists ms. split; [exact Hget|]. rewrite <- H3. apply Hiff.
    vm_compute. reflexivity.
  - destruct (proj2 (created_message_is_listed_until_it_expires
                       env late "TTL test" "TTLTestUser" 2 false None
                       Sample.stale_world _ _ H1 H2))
      as (ms & Hget & Hiff).
    exists ms. split; [exact Hget|]. rewrite <- H3. intros Hin.
    apply Hiff in Hin. revert Hin. vm_compute. discriminate.
Defined.

(** What [create_message] returns keeps the microseconds of its clock
    readings; what it has stored does not. *)
Example returned_message_differs_from_stored :
  let env := Sample.env_at (Sample.T0 + 500) in
  let r := create_message env "gone" "erin" 0 false None Sample.empty_world in
  exists m,
    fst r = Ret m /\
    db_messages (snd r) = [Bson.through m] /\
    ~ In m (db_messages (snd r)).
Proof.
  eexists. vm_compute. split; [reflexivity|]. split; [reflexivity|].
  intros [H|[]]. discriminate.
Qed.

(** X17. A message created with a non-positive [ttl_seconds] is stored,
    its dates cut to the millisecond, but never listed: at any clock
    reading not before the one of its creation, [get_messages] leaves out
    both the returned message and its stored form, whatever else the store
    holds. *)
Theorem non_positive_ttl_is_never_listed
    (env env' : Env) (text author : string) (ttl : Z) (std : bool)
    (file : option UploadFile) (w w' w'' : World) (m : Message) :
  create_message env text author ttl std file w = (Ret m, w') ->
  ttl <= 0 ->
  now env <= now env' ->
  In (Bson.through m) (db_messages w') /\
  ~ In m (Sample.returned (get_messages env' w'')) /\
  ~ In (Bson.through m) (Sample.returned (get_messages env' w'')).
Proof.
  intros Hrun Httl Hclock.
  destruct (create_message_ret _ _ _ _ _ _ _ _ _ Hrun)
    as (_ & _ & _ & Hdb & _ & _ & _ & Hexp).
  split; [rewrite Hdb; apply in_or_app; right; now left|].
  unfold Sample.returned. rewrite get_messages_value. cbn [fst].
  split; intros Hin;
    apply in_firstn, sorted_live_members in Hin; destruct Hin as [_ Hlive];
    unfold live in Hlive.
  - rewrite Hexp in Hlive. lia.
  - rewrite through_expires_at, Hexp in Hlive. simpl in Hlive.
    pose proof (date_le (now env + ttl * 1000000)). lia.
Qed.

Lemma non_positive_ttl_is_never_listed_witness :
  let env := Sample.env_at Sample.T0 in
  let r := create_message env "gone" "erin" 0 false None Sample.empty_world in
  let m := mkMessage "9a1e" "gone" "erin" Sample.T0 (Some 0)
                     (Some Sample.T0) None None None in
  (r = (Ret m, snd r) /\ 0 <= 0 /\ now env <= now env) /\
  In (Bson.through m) (db_messages (snd r)) /\
  ~ In m (Sample.returned (get_messages env (snd r))) /\
  ~ In (Bson.through m) (Sample.returned (get_messages env (snd r))).
Proof.
  intros env r m.
  assert (H1 : r = (Ret m, snd r)) by (vm_compute; reflexivity).
  assert (H2 : 0 <= 0) by lia.
  assert (H3 : now env <= now env) by lia.
  split; [split; [exact H1 | split; assumption]|].
  exact (non_positive_ttl_is_never_listed
           env env "gone" "erin" 0 false None
           Sample.empty_world _ (snd r) _ H1 H2 H3).
Defined.

(** X18. The expiration sweep and a created message: the message is stored
    with its [expires_at] (creation clock plus [ttl_seconds]) cut to the
    millisecond, and the sweep compares that with its own clock reading cut
    to the millisecond. A sweep that runs next keeps the stored message
    while its clock is less than a millisecond past the stored
    [expires_at], and removes it from then on. *)
Theorem created_message_is_swept_after_expiry
    (env env2 : Env) (text author : string) (ttl : Z) (std : bool)
    (file : option UploadFile) (w w' : World) (m : Message) :
  create_message env text author ttl std file w = (Ret m, w') ->
  let after := db_messages (snd (cleanup_expired_messages env2 w')) in
  let stored := Bson.through m in
  let expiry := Bson.date (now env + ttl * 1000000) in
  expires_at stored = Some expiry /\
  (In stored after <-> Bson.date (now env2) <= expiry) /\
  (expiry + 1000 <= now env2 -> ~ In stored after) /\
  (now env2 < expiry + 1000 -> In stored after).
Proof.
  intros Hrun after stored expiry. subst after.
  destruct (create_message_ret _ _ _ _ _ _ _ _ _ Hrun)
    as (_ & _ & _ & Hdb & _ & _ & _ & Hexp).
  assert (Hst : expires_at stored = Some expiry)
    by (subst stored; rewrite through_expires_at, Hexp; reflexivity).
  assert (Hin : In stored (db_messages w'))
    by (rewrite Hdb; apply in_or_app; right; left; reflexivity).
  assert (Hiff : In stored (db_messages (snd (cleanup_expired_messages env2 w')))
                 <-> Bson.date (now env2) <= expiry).
  { rewrite cleanup_member. unfold Mongo.expires_lt. rewrite Hst, Z.ltb_ge.
    tauto. }
  pose proof (whole_lt_date expiry (now env2) (date_idem _)) as Hw.
  split; [exact Hst|]. split; [exact Hiff|]. split.
  - intros Hpast Hkept. apply Hiff in Hkept. lia.
  - intros Hclock. apply Hiff. lia.
Qed.

Lemma created_message_is_swept_after_expiry_witness :
  let env := Sample.env_at (Sample.T0 + 500) in
  let early := Sample.env_at (Sample.T0 + Sample.seconds 2 + 999) in
  let env2 := Sample.env_at (Sample.T0 + Sample.seconds 2 + 1000) in
  let r := create_message env "TTL test" "TTLTestUser" 2 false None
                          Sample.empty_world in
  let m := mkMessage "9a1e" "TTL test" "TTLTestUser" (Sample.T0 + 500)
                     (Some 2) (Some (Sample.T0 + 500 + Sample.seconds 2))
                     None None None in
  let expiry := Bson.date (now env + 2 * 1000000) in
  r = (Ret m, snd r) /\
  (now early < expiry + 1000 /\
   In (Bson.through m)
      (db_messages (snd (cleanup_expired_messages early (snd r))))) /\
  (expiry + 1000 <= now env2 /\
   ~ In (Bson.through m)
        (db_messages (snd (cleanup_expired_messages env2 (snd r))))).
Proof.
  intros env early env2 r m expiry.
  assert (H1 : r = (Ret m, snd r)) by (vm_compute; reflexivity).
  assert (H2 : now early < expiry + 1000) by (vm_compute; reflexivity).
  assert (H3 : expiry + 1000 <= now env2) by (vm_compute; discriminate).
  split; [exact H1|]. split; (split; [assumption|]).
  - exact (proj2 (proj2 (proj2 (created_message_is_swept_after_expiry
                    env early "TTL test" "TTLTestUser" 2 false None
                    Sample.empty_world _ _ H1))) H2).
  - exact (proj1 (proj2 (proj2 (created_message_is_swept_after_expiry
                    env env2 "TTL test" "TTLTestUser" 2 false None
                    Sample.empty_world _ _ H1))) H3).
Defined.

(** X19. An accepted create calls the webhook exactly once when
    [send_to_discord] is set and not at all when it is not; the call
    carries the text [**author**: content], attaches the file exactly when
    the request has a named upload, and its success is the webhook's status
    being 200 or 204. *)
Theorem webhook_is_called_only_on_request
    (env : Env) (text author : string) (ttl : Z) (std : bool)
    (file : option UploadFile) (w w' : World) (m : Message) :
  create_message env text author ttl std file w = (Ret m, w') ->
  List.filter is_relay (events_since w w') =
    if std
    then [EvRelay ("**" ++ author ++ "**: " ++ text)
                  (match named_upload file with Some _ => true | None => false end)
                  (relay_ok (relay env))]
    else [].
Proof.
  intros Hrun.
  destruct (create_message_ret _ _ _ _ _ _ _ _ _ Hrun) as (Hal & Hfit & Hexp & _).
  destruct (create_message_factor env text author ttl std file w _ Hal Hexp Hfit)
    as (m0 & fs & pre & Heq & Hshape).
  rewrite Heq in Hrun. injection Hrun as <- <-.
  destruct (broadcast_frame (send_fails env) (NewMessage m0) (active_connections w))
    as (cs & sends & Hs & Hb).
  rewrite Hb by reflexivity. simpl.
  erewrite events_since_app by (simpl; rewrite <- app_assoc; reflexivity).
  rewrite List.filter_app. simpl. rewrite (relay_filter_sends _ Hs), app_nil_r.
  destruct (named_upload file) as [[f fname]|];
    destruct Hshape as (_ & _ & ->); destruct std; reflexivity.
Qed.

Lemma webhook_is_called_only_on_request_witness :
  let env := Sample.env_at Sample.T0 in
  let f := mkUpload (Some "notes.txt") Sample.hello in
  let asked := create_message env "hello" "erin" 60 true (Some f)
                              Sample.one_viewer in
  let quiet := create_message env "hello" "erin" 60 false None
                              Sample.one_viewer in
  ((exists m, asked = (Ret m, snd asked)) /\
   List.filter is_relay (events_since Sample.one_viewer (snd asked)) =
     [EvRelay "**erin**: hello" true true]) /\
  ((exists m, quiet = (Ret m, snd quiet)) /\
   List.filter is_relay (events_since Sample.one_viewer (snd quiet)) = []).
Proof.
  intros env f asked quiet.
  assert (H1 : asked =
               (Ret (mkMessage "9a1e" "hello" "erin" Sample.T0 (Some 60)
                       (Some (Sample.T0 + Sample.seconds 60))
                       (Some "uploads/5f0c.txt") (Some "notes.txt") (Some 2)),
                snd asked))
    by (vm_compute; reflexivity).
  assert (H2 : quiet =
               (Ret (mkMessage "9a1e" "hello" "erin" Sample.T0 (Some 60)
                       (Some (Sample.T0 + Sample.seconds 60))
                       None None None), snd quiet))
    by (vm_compute; reflexivity).
  split; (split; [eexists; eassumption|]).
  - exact (webhook_is_called_only_on_request
             env "hello" "erin" 60 true (Some f) Sample.one_viewer _ _ H1).
  - exact (webhook_is_called_only_on_request
             env "hello" "erin" 60 false None Sample.one_viewer _ _ H2).
Defined.
(** ** The deny-list *)

Section DenyListMore.

Lemma split_not_nil (sep : ascii) (s : string) : PyStr.split sep s <> [].
Proof.
  destruct s as [|c r]; simpl; [discriminate|].
  destruct (Ascii.eqb c sep); [discriminate|].
  destruct (PyStr.split sep r); discriminate.
Qed.

Lemma split_app (sep : ascii) (a b : string) :
  PyStr.split sep (a ++ String sep b) =
  (PyStr.split sep a ++ PyStr.split sep b)%list.
Proof.
  induction a as [|c r IH]; step_app.
  - simpl. now rewrite Ascii.eqb_refl.
  - simpl. rewrite IH. destruct (Ascii.eqb c sep); [reflexivity|].
    destruct (PyStr.split sep r) as [|h t] eqn:Hs; [|reflexivity].
    now apply split_not_nil in Hs.
Qed.

Lemma split_absent (sep : ascii) (s : string) :
  PyStr.contains sep s = false -> PyStr.split sep s = [s].
Proof.
  induction s as [|c r IH]; simpl; [reflexivity|].
  intros H. apply orb_false_iff in H as [Hc Hr].
  rewrite Hc, (IH Hr). reflexivity.
Qed.

Lemma split_keeps_absent (c sep : ascii) (s x : string) :
  PyStr.contains c s = false -> In x (PyStr.split sep s) ->
  PyStr.contains c x = false.
Proof.
  revert x; induction s as [|a r IH]; intros x Hc; simpl.
  - intros [<-|[]]. reflexivity.
  - simpl in Hc. apply orb_false_iff in Hc as [Ha Hr].
    destruct (Ascii.eqb a sep).
    + intros [<-|Hin]; [reflexivity | now apply IH].
    + destruct (PyStr.split sep r) as [|h t] eqn:Hs.
      * intros [<-|[]]. simpl. now rewrite Ha.
      * intros [<-|Hin].
        -- simpl. rewrite Ha. simpl. apply IH; [exact Hr | now left].
        -- apply IH; [exact Hr | now right].
Qed.

Lemma name_keeps_absent (c : ascii) (p : string) :
  PyStr.contains c p = false -> PyStr.contains c (PyPath.name p) = false.
Proof.
  intros Hc. unfold PyPath.name, PyPath.parts.
  destruct (last_in_or_default
              (List.filter PyPath.keep_part (PyStr.split "/" p)) "") as [->|Hin];
    [reflexivity|].
  apply List.filter_In in Hin. destruct Hin as [Hin _].
  eapply split_keeps_absent; eassumption.
Qed.

Lemma allowed_of_empty_suffix (p : string) :
  PyPath.suffix p = "" -> is_file_allowed p = true.
Proof. unfold is_file_allowed. intros ->. vm_compute. reflexivity. Qed.

Lemma name_of_plain (n : string) :
  PyStr.contains "/" n = false -> PyPath.keep_part n = true ->
  PyPath.name n = n.
Proof.
  intros Hs Hk. unfold PyPath.name, PyPath.parts.
  rewrite (split_absent _ _ Hs). simpl. now rewrite Hk.
Qed.

Lemma name_of_dropped (n : string) :
  PyStr.contains "/" n = false -> PyPath.keep_part n = false ->
  PyPath.name n = "".
Proof.
  intros Hs Hk. unfold PyPath.name, PyPath.parts.
  rewrite (split_absent _ _ Hs). simpl. now rewrite Hk.
Qed.

Lemma last_snoc {A} (l : list A) (x d : A) :
  List.last (l ++ [x])%list d = x.
Proof.
  induction l as [|y t IH]; [reflexivity|].
  simpl. destruct (t ++ [x])%list eqn:E; [|exact IH].
  destruct t; discriminate.
Qed.

Lemma name_under_directory (dir base : string) :
  PyStr.contains "/" base = false -> PyPath.keep_part base = true ->
  PyPath.name (dir ++ String "/" base) = base.
Proof.
  intros Hs Hk. unfold PyPath.name, PyPath.parts.
  rewrite split_app, List.filter_app, (split_absent _ _ Hs). simpl.
  rewrite Hk. apply last_snoc.
Qed.

End DenyListMore.

(** X20. For a file name [<stem>.<rest>], with a non-empty stem without a
    slash and a non-empty [rest] without a dot or a slash, the verdict
    depends on [.<rest>] alone: the name is refused exactly when [.<rest>],
    lower-cased, is on the deny-list. Dots inside the stem do not count:
    [x.php.txt] is allowed, [x.tar.SH] is refused. *)
Theorem last_extension_decides (stem rest : string) :
  stem <> "" -> PyStr.contains "/" stem = false ->
  rest <> "" -> PyStr.contains "." rest = false ->
  PyStr.contains "/" rest = false ->
  (is_file_allowed (stem ++ String "." rest) = false <->
   PyStr.lower (String "." rest) ∈ BLOCKED_EXTENSIONS).
Proof.
  intros. rewrite is_file_allowed_false. now rewrite suffix_of_named.
Qed.

Lemma last_extension_decides_witness :
  ("x.php" <> "" /\ PyStr.contains "/" "x.php" = false /\
   "txt" <> "" /\ PyStr.contains "." "txt" = false /\
   PyStr.contains "/" "txt" = false) /\
  (is_file_allowed "x.php.txt" = false <->
   PyStr.lower ".txt" ∈ BLOCKED_EXTENSIONS).
Proof.
  assert (H1 : "x.php" <> "") by discriminate.
  assert (H2 : PyStr.contains "/" "x.php" = false) by reflexivity.
  assert (H3 : "txt" <> "") by discriminate.
  assert (H4 : PyStr.contains "." "txt" = false) by reflexivity.
  assert (H5 : PyStr.contains "/" "txt" = false) by reflexivity.
  split; [repeat split; assumption|].
  exact (last_extension_decides "x.php" "txt" H1 H2 H3 H4 H5).
Defined.

(** X21. Names the deny-list never refuses: a name without any dot; a name
    whose only dot is its first character (a hidden file such as [.php]);
    and a name that ends in a dot (such as [x.php.]). *)
Theorem names_without_extension_are_allowed :
  (forall filename, PyStr.contains "." filename = false ->
                    is_file_allowed filename = true) /\
  (forall rest, PyStr.contains "." rest = false ->
                PyStr.contains "/" rest = false ->
                is_file_allowed (String "." rest) = true) /\
  (forall stem, PyStr.contains "/" stem = false ->
                is_file_allowed (stem ++ ".") = true).
Proof.
  split; [|split].
  - intros filename Hdot. apply allowed_of_empty_suffix.
    unfold PyPath.suffix.
    rewrite (rfind_absent _ _ (name_keeps_absent _ _ Hdot)). reflexivity.
  - intros rest Hdot Hslash. apply allowed_of_empty_suffix.
    unfold PyPath.suffix.
    destruct (PyPath.keep_part (String "." rest)) eqn:Hk.
    + rewrite name_of_plain by (simpl; assumption).
      simpl. rewrite (rfind_absent _ _ Hdot). reflexivity.
    + rewrite name_of_dropped by (simpl; assumption). reflexivity.
  - intros stem Hslash. apply allowed_of_empty_suffix.
    unfold PyPath.suffix.
    assert (Hs : PyStr.contains "/" (stem ++ ".") = false)
      by (rewrite contains_app, Hslash; reflexivity).
    destruct (PyPath.keep_part (stem ++ ".")) eqn:Hk.
    + rewrite name_of_plain by assumption.
      rewrite rfind_app_found by (simpl; lia).
      unfold PyStr.len. rewrite str_length_app. simpl PyStr.rfind.
      simpl String.length.
      destruct (Z.ltb_spec (Z.of_nat (String.length stem) + 0)
                  (Z.of_nat (String.length stem + 1) - 1)); [lia|].
      now rewrite andb_false_r.
    + rewrite name_of_dropped by assumption. reflexivity.
Qed.

Lemma names_without_extension_are_allowed_witness :
  (PyStr.contains "." "README" = false /\ is_file_allowed "README" = true) /\
  ((PyStr.contains "." "php" = false /\ PyStr.contains "/" "php" = false) /\
   is_file_allowed ".php" = true) /\
  (PyStr.contains "/" "x.php" = false /\ is_file_allowed "x.php." = true).
Proof.
  destruct names_without_extension_are_allowed as (Ha & Hb & Hc).
  assert (H1 : PyStr.contains "." "README" = false) by reflexivity.
  assert (H2 : PyStr.contains "." "php" = false) by reflexivity.
  assert (H3 : PyStr.contains "/" "php" = false) by reflexivity.
  assert (H4 : PyStr.contains "/" "x.php" = false) by reflexivity.
  split; [split; [exact H1 | exact (Ha "README" H1)]|].
  split; [split; [split; assumption | exact (Hb "php" H2 H3)]|].
  split; [exact H4 | exact (Hc "x.php" H4)].
Defined.

(** X22. Only the last component of an uploaded name counts: a directory
    prefix, whatever it contains, does not change the verdict. *)
Theorem directory_prefix_is_ignored (dir base : string) :
  PyStr.contains "/" base = false -> base <> "" -> base <> "." ->
  is_file_allowed (dir ++ String "/" base) = is_file_allowed base.
Proof.
  intros Hs Hne Hnd.
  assert (Hk : PyPath.keep_part base = true).
  { unfold PyPath.keep_part.
    destruct (String.eqb_spec base ""); [congruence|].
    destruct (String.eqb_spec base "."); [congruence|]. reflexivity. }
  unfold is_file_allowed, PyPath.suffix.
  now rewrite name_under_directory, name_of_plain.
Qed.

Lemma directory_prefix_is_ignored_witness :
  (PyStr.contains "/" "notes.txt" = false /\ "notes.txt" <> "" /\ "notes.txt" <> ".") /\
  is_file_allowed "evil.php/notes.txt" = is_file_allowed "notes.txt".
Proof.
  assert (H1 : PyStr.contains "/" "notes.txt" = false) by reflexivity.
  assert (H2 : "notes.txt" <> "") by discriminate.
  assert (H3 : "notes.txt" <> ".") by discriminate.
  split; [repeat split; assumption|].
  exact (directory_prefix_is_ignored "evil.php" "notes.txt" H1 H2 H3).
Defined.

(** ** The API test client *)

Section TesterMore.

Lemma log_all_counts (calls : list Tester.TestResult) :
  forall st : Tester.Counters,
    Tester.tests_run (Tester.log_all calls st) =
      (Tester.tests_run st + List.length calls)%nat /\
    Tester.tests_passed (Tester.log_all calls st) =
      (Tester.tests_passed st +
       List.length (List.filter Tester.success calls))%nat /\
    Tester.test_results (Tester.log_all calls st) =
      (Tester.test_results st ++ calls)%list.
Proof.
  induction calls as [|r rest IH]; intros st; simpl.
  - rewrite !Nat.add_0_r, app_nil_r. auto.
  - destruct (IH (Tester.log_test (Tester.name r) (Tester.success r)
                    (Tester.details r) st)) as (H1 & H2 & H3).
    unfold Tester.log_all in *. simpl in *. rewrite H1, H2, H3.
    destruct r as [n s d]; simpl. rewrite <- app_assoc. simpl.
    destruct s; simpl; repeat split; lia.
Qed.

Lemma filter_all_length {A} (f : A -> bool) (l : list A) :
  List.length (List.filter f l) = List.length l <-> forallb f l = true.
Proof.
  induction l as [|x t IH]; simpl; [tauto|].
  pose proof (List.filter_length_le f t).
  destruct (f x); simpl.
  - rewrite <- IH. lia.
  - split; [lia | discriminate].
Qed.

Lemma rfind_drop (c : ascii) (s : string) :
  0 <= PyStr.rfind c s ->
  exists r, PyStr.drop (Z.to_nat (PyStr.rfind c s)) s = String c r.
Proof.
  induction s as [|a r IH]; simpl; [lia|].
  destruct (Z.leb_spec 0 (PyStr.rfind c r)) as [Hk|Hk].
  - intros _. destruct (IH Hk) as (r' & Hr').
    exists r'. rewrite Z2Nat.inj_add by lia.
    rewrite Nat.add_comm. simpl. exact Hr'.
  - destruct (Ascii.eqb_spec a c) as [->|]; [|lia].
    intros _. exists r. reflexivity.
Qed.

Lemma suffix_shape (p : string) :
  PyPath.suffix p = "" \/ exists r, PyPath.suffix p = String "." r.
Proof.
  unfold PyPath.suffix, PyStr.slice_from.
  destruct (_ && _) eqn:E; [|now left].
  right. apply andb_true_iff in E as [E _]. apply Z.ltb_lt in E.
  apply rfind_drop. lia.
Qed.

Lemma append_nil_r (s : string) : s ++ "" = s.
Proof. induction s as [|a r IH]; step_app; [reflexivity | now rewrite IH]. Qed.

End TesterMore.

(** X23. The counters of the test client: after any run of [log_test]
    calls from the initial state, [tests_run] is the number of calls,
    [test_results] lists them in order, [tests_passed] is the number of
    successful ones and never exceeds [tests_run], and the final verdict
    ([tests_passed == tests_run]) holds exactly when every call reported
    success. *)
Theorem tester_counters_agree (calls : list Tester.TestResult) :
  let st := Tester.log_all calls Tester.init in
  Tester.tests_run st = List.length calls /\
  Tester.test_results st = calls /\
  Tester.tests_passed st = List.length (List.filter Tester.success calls) /\
  (Tester.tests_passed st <= Tester.tests_run st)%nat /\
  (Tester.verdict st = true <-> forallb Tester.success calls = true).
Proof.
  destruct (log_all_counts calls Tester.init) as (H1 & H2 & H3).
  simpl in *. unfold Tester.verdict. rewrite H1, H2, H3.
  pose proof (List.filter_length_le Tester.success calls).
  repeat split; try lia.
  - intros E. apply Nat.eqb_eq in E. now apply filter_all_length.
  - intros E. apply Nat.eqb_eq. now apply filter_all_length.
Qed.

(** X24. The test client recovers the upload's uuid from the path the
    server stored: for a uuid without a slash or a dot,
    [file_path.split('/')[-1].split('.')[0]] of
    [uploads/<uuid><suffix of the file name>] is the uuid, whatever the
    uploaded file's name. *)
Theorem tester_recovers_the_uuid (file_id fname : string) :
  PyStr.contains "/" file_id = false ->
  PyStr.contains "." file_id = false ->
  Tester.file_id_of (UPLOAD_DIR ++ "/" ++ file_id ++ PyPath.suffix fname) = file_id.
Proof.
  intros Hslash Hdot. unfold Tester.file_id_of, UPLOAD_DIR.
  change ("uploads" ++ "/" ++ file_id ++ PyPath.suffix fname)
    with ("uploads" ++ String "/" (file_id ++ PyPath.suffix fname)).
  rewrite split_app.
  rewrite (split_absent "/" (file_id ++ PyPath.suffix fname))
    by (rewrite contains_app, Hslash, suffix_no_slash; reflexivity).
  change (PyStr.split "/" "uploads") with ["uploads"]. simpl List.last.
  destruct (suffix_shape fname) as [->|(r & ->)].
  - rewrite append_nil_r, (split_absent _ _ Hdot). reflexivity.
  - rewrite split_app, (split_absent _ _ Hdot). reflexivity.
Qed.

Lemma tester_recovers_the_uuid_witness :
  (PyStr.contains "/" "5f0c-77" = false /\ PyStr.contains "." "5f0c-77" = false) /\
  Tester.file_id_of ("uploads/5f0c-77" ++ PyPath.suffix "my.report.final.pdf")
    = "5f0c-77".
Proof.
  assert (H1 : PyStr.contains "/" "5f0c-77" = false) by reflexivity.
  assert (H2 : PyStr.contains "." "5f0c-77" = false) by reflexivity.
  split; [split; assumption|].
  exact (tester_recovers_the_uuid "5f0c-77" "my.report.final.pdf" H1 H2).
Defined.

(** ** An attachment from upload to reset *)

(** X25. The file of an accepted upload outlives its message: after any
    round of the expiration sweep, also one that removes the stored message
    (as the sweep does once its clock is a millisecond or more past the
    stored [expires_at]), the file is still in the upload directory with
    its contents; when the uuid is a non-empty name without a slash, a
    round of the full reset after that removes it. *)
Theorem attachment_outlives_its_message_until_reset
    (env env2 env3 : Env) (text author : string) (ttl : Z) (std : bool)
    (f : UploadFile) (fname : string) (w w1 : World) (m : Message) :
  named_upload (Some f) = Some (f, fname) ->
  create_message env text author ttl std (Some f) w = (Ret m, w1) ->
  uuid_file env <> "" ->
  PyStr.contains "/" (uuid_file env) = false ->
  let path := UPLOAD_DIR ++ "/" ++ uuid_file env ++ PyPath.suffix fname in
  let stored := Bson.through m in
  let w2 := snd (cleanup_expired_messages env2 w1) in
  let w3 := snd (auto_clear_all_messages env3 w2) in
  (In stored (db_messages w1) /\ file_path stored = Some path) /\
  (Bson.date (now env + ttl * 1000000) + 1000 <= now env2 ->
   ~ In stored (db_messages w2)) /\
  uploads w2 !! path = Some (payload f) /\
  uploads w3 !! path = None.
Proof.
  intros Hnu Hrun Hne Hid path stored w2 w3.
  destruct (create_message_ret _ _ _ _ _ _ _ _ _ Hrun)
    as (Hal & Hfit & Hexp & Hdb & _ & _ & _ & Hexpires).
  destruct (create_message_factor env text author ttl std (Some f) w _
              Hal Hexp Hfit) as (m0 & fs & pre & Heq & Hshape).
  rewrite Hnu in Hshape. destruct Hshape as (Hm & Hfs & _).
  rewrite Heq in Hrun. injection Hrun as <- Hw1.
  split; [split|split; [|split]].
  - rewrite Hdb. apply in_or_app. right. now left.
  - subst stored. rewrite Hm. reflexivity.
  - intros Hclock Hin. subst w2. apply cleanup_member in Hin.
    destruct Hin as [_ Hkeep]. unfold Mongo.expires_lt in Hkeep.
    subst stored. rewrite through_expires_at, Hexpires in Hkeep.
    simpl in Hkeep. apply Z.ltb_ge in Hkeep.
    pose proof (proj2 (whole_lt_date _ (now env2) (date_idem _)) Hclock).
    lia.
  - subst w2. rewrite cleanup_keeps_uploads. rewrite <- Hw1.
    rewrite (proj2 (broadcast_keeps_store _ _ _)). simpl.
    subst fs. apply lookup_insert_eq.
  - subst w3. rewrite auto_clear_lookup.
    unfold path. rewrite (stored_path_is_child _ _ Hne Hid (suffix_no_slash fname)).
    reflexivity.
Qed.

Lemma attachment_outlives_its_message_until_reset_witness :
  let env := Sample.env_at (Sample.T0 + 500) in
  let env2 := Sample.env_at (Sample.T0 + Sample.seconds 61) in
  let env3 := Sample.env_at (Sample.T0 + Sample.seconds 3600) in
  let f := mkUpload (Some "notes.txt") Sample.hello in
  let m := mkMessage "9a1e" "see file" "erin" (Sample.T0 + 500) (Some 60)
                     (Some (Sample.T0 + 500 + Sample.seconds 60))
                     (Some "uploads/5f0c.txt") (Some "notes.txt") (Some 2) in
  let r := create_message env "see file" "erin" 60 false (Some f) Sample.empty_world in
  let w2 := snd (cleanup_expired_messages env2 (snd r)) in
  (named_upload (Some f) = Some (f, "notes.txt") /\ r = (Ret m, snd r) /\
   uuid_file env <> "" /\ PyStr.contains "/" (uuid_file env) = false /\
   Bson.date (now env + 60 * 1000000) + 1000 <= now env2) /\
  ~ In (Bson.through m) (db_messages w2) /\
  uploads w2 !! "uploads/5f0c.txt" = Some Sample.hello /\
  uploads (snd (auto_clear_all_messages env3 w2)) !! "uploads/5f0c.txt" = None.
Proof.
  intros env env2 env3 f m r w2.
  assert (H1 : named_upload (Some f) = Some (f, "notes.txt")) by reflexivity.
  assert (H2 : r = (Ret m, snd r)) by (vm_compute; reflexivity).
  assert (H3 : uuid_file env <> "") by discriminate.
  assert (H4 : PyStr.contains "/" (uuid_file env) = false) by reflexivity.
  assert (H5 : Bson.date (now env + 60 * 1000000) + 1000 <= now env2)
    by (vm_compute; discriminate).
  split; [repeat split; assumption|].
  destruct (attachment_outlives_its_message_until_reset
              env env2 env3 "see file" "erin" 60 false f "notes.txt"
              Sample.empty_world _ _ H1 H2 H3 H4) as (_ & Ha & Hb & Hc).
  split; [exact (Ha H5)|]. split; [exact Hb | exact Hc].
Defined.

Lemma filter_filter_implied {A} (f g : A -> bool) (l : list A) :
  (forall x, g x = true -> f x = true) ->
  List.filter g (List.filter f l) = List.filter g l.
Proof.
  intros Himp. induction l as [|x t IH]; simpl; [reflexivity|].
  destruct (f x) eqn:Hf; simpl.
  - destruct (g x); [now f_equal | exact IH].
  - destruct (g x) eqn:Hg; [|exact IH].
    rewrite (Himp x Hg) in Hf. discriminate.
Qed.

(** X26. Sweeps compose: a round of the expiration sweep followed by a
    round at the same or a later clock reading leaves the same message
    store as the later round alone. *)
Theorem later_sweep_subsumes_earlier (env1 env2 : Env) (w : World) :
  now env1 <= now env2 ->
  db_messages (snd (cleanup_expired_messages env2
                      (snd (cleanup_expired_messages env1 w)))) =
  db_messages (snd (cleanup_expired_messages env2 w)).
Proof.
  intros Hle. rewrite !cleanup_messages.
  apply filter_filter_implied. intros m. unfold Mongo.expires_lt.
  destruct (expires_at m) as [e|]; [|reflexivity].
  rewrite !negb_true_iff, !Z.ltb_ge.
  pose proof (date_mono _ _ Hle). lia.
Qed.

Lemma later_sweep_subsumes_earlier_witness :
  let env1 := Sample.env_at (Sample.T0 + Sample.seconds 61) in
  let env2 := Sample.env_at (Sample.T0 + Sample.seconds 7200) in
  now env1 <= now env2 /\
  db_messages (snd (cleanup_expired_messages env2
                      (snd (cleanup_expired_messages env1 Sample.pinned_world)))) =
  db_messages (snd (cleanup_expired_messages env2 Sample.pinned_world)).
Proof.
  intros env1 env2.
  assert (H : now env1 <= now env2) by (vm_compute; discriminate).
  split; [exact H|].
  exact (later_sweep_subsumes_earlier env1 env2 Sample.pinned_world H).
Defined.
